(** * music21 corpus package: identifier resolution and reference index

    A shallow embedding of [corpus/__init__.py]: the path routines
    ([getPaths], [addPath]), composer matching ([getComposer]), the work
    resolver ([getWork], [getVirtualWorkList]), the reference index
    builder ([getWorkReferences]), the corpus file path of a parsed stream
    ([_addCorpusFilepath]) and the compression routines ([compressXML],
    [uncompressMXL], [compressAllXMLFiles]).

    Conventions of the model.
    - Strings are [string] (sequences of 8-bit characters); [str.lower]
      acts on the letters A-Z, so case-insensitive comparison is the one
      Python performs on ASCII text.
    - Functions of other modules ([music21.common], [music21.corpus.corpora],
      [music21.corpus.virtual], [os.path], the environment) are Section
      variables: the theorems hold for every behaviour of theirs.
    - A Python exception is a value of an error type. *)

From Stdlib Require Import Ascii String List Bool Arith Lia.
From stdpp Require Import base list gmap strings sorting.
Import ListNotations.

(** ** Python string operations *)

Module PyStr.

(** [c.lower()] for one character. *)
Definition lower_char (c : ascii) : ascii :=
  let n := nat_of_ascii c in
  if (65 <=? n)%nat && (n <=? 90)%nat then ascii_of_nat (n + 32) else c.

(** [s.lower()] *)
Fixpoint lower (s : string) : string :=
  match s with
  | EmptyString => EmptyString
  | String c s' => String (lower_char c) (lower s')
  end.

(** [s.startswith(p)] *)
Definition startswith (s p : string) : bool := String.prefix p s.

(** [s.endswith(suf)] *)
Fixpoint endswith (s suf : string) : bool :=
  String.eqb s suf ||
  match s with
  | EmptyString => false
  | String _ s' => endswith s' suf
  end.

(** [w in s] on strings: [w] occurs in [s] as a contiguous substring. *)
Fixpoint contains (w s : string) : bool :=
  String.prefix w s ||
  match s with
  | EmptyString => false
  | String _ s' => contains w s'
  end.

(** The scan of [s.split(sep)] for a non-empty [sep]: [cur] holds the
    characters of the piece being read, [skip] the characters of a
    separator just recognised that are still to be passed over. *)
Fixpoint split_go (sep : string) (skip : nat) (cur s : string) : list string :=
  match s with
  | EmptyString => [cur]
  | String c s' =>
      match skip with
      | S k => split_go sep k cur s'
      | O =>
          if String.prefix sep s
          then cur :: split_go sep (String.length sep - 1) EmptyString s'
          else split_go sep 0 (cur +:+ String c EmptyString) s'
      end
  end.

(** [s.split(sep)]; Python raises ValueError for an empty separator. *)
Definition split (sep s : string) : option (list string) :=
  if String.eqb sep EmptyString then None else Some (split_go sep 0 EmptyString s).

(** [s.split(c)] for a one-character separator, which cannot fail. *)
Definition split_char (c : ascii) (s : string) : list string :=
  split_go (String c EmptyString) 0 EmptyString s.

(** [sep.join(l)] *)
Definition join (sep : string) (l : list string) : string := String.concat sep l.

(** The scan of [s.replace(old, new)] for a non-empty [old]. *)
Fixpoint replace_go (old new : string) (skip : nat) (s : string) : string :=
  match s with
  | EmptyString => EmptyString
  | String c s' =>
      match skip with
      | S k => replace_go old new k s'
      | O =>
          if String.prefix old s
          then new +:+ replace_go old new (String.length old - 1) s'
          else String c (replace_go old new 0 s')
      end
  end.

(** [s.replace('', new)] puts [new] before every character and at the end. *)
Fixpoint intersperse_all (new s : string) : string :=
  match s with
  | EmptyString => new
  | String c s' => new +:+ String c (intersperse_all new s')
  end.

(** [s.replace(old, new)] *)
Definition replace (s old new : string) : string :=
  if String.eqb old EmptyString then intersperse_all new s
  else replace_go old new 0 s.

(** [s[0:n]] for [0 <= n]. *)
Definition take (n : nat) (s : string) : string := String.substring 0 n s.

(** [s[n:]] for [0 <= n]. *)
Fixpoint drop (n : nat) (s : string) : string :=
  match n, s with
  | O, _ => s
  | S k, String _ s' => drop k s'
  | S _, EmptyString => EmptyString
  end.

(** [s1 < s2] on strings: lexicographic on character codes. *)
Definition ltb (s1 s2 : string) : bool := String.ltb s1 s2.

End PyStr.

(** ** [list.sort()]

    Python's sort is stable and consults only [<]. It is modelled as a stable
    insertion sort: each element, taken in list order, is placed before the
    first element already placed that it is smaller than. *)

Section PySort.
Context {A : Type} (lt : A -> A -> bool).

Fixpoint insert_sorted (x : A) (l : list A) : list A :=
  match l with
  | [] => [x]
  | y :: l' => if lt x y then x :: l else y :: insert_sorted x l'
  end.

Definition py_sort (l : list A) : list A :=
  fold_left (fun acc x => insert_sorted x acc) l [].

End PySort.

(** ** Values and errors *)

(** The exceptions the modelled functions raise. [CorpusException] is the
    module's own; the others are raised by the Python runtime. *)
Inductive PyError : Type :=
  | CorpusException (msg : string)
  | RuntimeError (msg : string)
  | ValueError (msg : string)
  | AttributeError (msg : string).

(** The outcome of a call: a returned value or a raised exception. *)
Inductive result (A : Type) : Type :=
  | Ok (a : A)
  | Raise (e : PyError).
Arguments Ok {A} a.
Arguments Raise {A} e.

(** Sequencing: an exception raised by [r] ends the computation. The
    instance gives the notation [x ← r; k]. *)
Global Instance result_bind : MBind result := fun A B k r =>
  match r with
  | Ok a => k a
  | Raise e => Raise e
  end.

(** A [for] loop whose body may raise: the first exception ends it. *)
Fixpoint for_each {A S} (body : S -> A -> result S) (l : list A) (s : S) : result S :=
  match l with
  | [] => Ok s
  | x :: l' => s' ← body s x; for_each body l' s'
  end.

(** The [fileExtensions] argument: [None], one extension, or a sequence of
    extensions (each possibly [None]). *)
Inductive PyExt : Type :=
  | ExtNone
  | ExtStr (e : string)
  | ExtList (l : list (option string)).

(** [if not common.isListLike(fileExtensions): fileExtensions = [fileExtensions]]
    ([common.isListLike] is the test "is a list or a tuple"). *)
Definition listify (fe : PyExt) : PyExt :=
  match fe with
  | ExtNone => ExtList [None]
  | ExtStr e => ExtList [Some e]
  | ExtList l => ExtList l
  end.

(** A work identifier: a string or a sequence of components. *)
Inductive WorkName : Type :=
  | NameStr (s : string)
  | NameSeq (l : list string).

(** A [virtual.VirtualWork] instance, as far as this module reads it. *)
Record VirtualWork : Type := mkVirtualWork {
  vw_corpusPath : option string;
  vw_composer : string;
  vw_title : string;
  vw_urlList : list string
}.

(** The fixed composer table of this module (path name, full name). *)
Definition COMPOSERS : list (string * string) :=
  [ ("airdsAirs", "Aird's Airs");
    ("bach", "Johann Sebastian Bach");
    ("beethoven", "Ludwig van Beethoven");
    ("cpebach", "C.P.E. Bach");
    ("ciconia", "Johannes Ciconia");
    ("essenFolksong", "Essen Folksong Collection");
    ("handel", "George Frideric Handel");
    ("haydn", "Joseph Haydn");
    ("josquin", "Josquin des Prez");
    ("luca", "D. Luca");
    ("miscFolk", "Miscellaneous Folk");
    ("monteverdi", "Claudio Monteverdi");
    ("mozart", "Wolfgang Amadeus Mozart");
    ("oneills1850", "Oneill's 1850");
    ("ryansMammoth", "Ryan's Mammoth Collection");
    ("schoenberg", "Arnold Schoenberg");
    ("schumann", "Robert Schumann") ].

(** A file record of the reference index: the dictionary [fileDict]. A key
    the dictionary does not have is [None] here ([fileName] for a virtual
    work's URL, [url] for a corpus file). *)
Record FileDict : Type := mkFileDict {
  fd_format : option string;
  fd_ext : option string;
  fd_corpusPath : string;
  fd_fileName : option string;
  fd_title : string;
  fd_url : option string
}.

(** The dictionary stored under a work stub: [ref['works'][workStub]]. *)
Record WorkDict : Type := mkWorkDict {
  wk_files : list FileDict;
  wk_title : string;
  wk_virtual : bool
}.

(** A reference entry: the dictionary [ref] of one composer. [sortedWorkKeys]
    is present only when sorting was requested. *)
Record Ref : Type := mkRef {
  ref_composer : string;
  ref_composerDir : string;
  ref_works : gmap string WorkDict;
  ref_sortedWorkKeys : option (list string)
}.

Global Instance FileDict_eq_dec : EqDecision FileDict.
Proof. solve_decision. Defined.

Global Instance WorkDict_eq_dec : EqDecision WorkDict.
Proof. solve_decision. Defined.

Global Instance Ref_eq_dec : EqDecision Ref.
Proof. solve_decision. Defined.

(** A key of the module-level path cache: a tuple whose first component is
    the domain; [key_rest] stands for the remaining components. *)
Record CacheKey : Type := mkCacheKey {
  key_domain : string;
  key_rest : list string
}.

Global Instance CacheKey_eq_dec : EqDecision CacheKey.
Proof. solve_decision. Defined.

(** The module-level mutable state: [_pathsCache], a dictionary given by its
    entries in iteration order, and [_pathsLocalTemp]. *)
Record ModuleState : Type := mkModuleState {
  pathsCache : list (CacheKey * list string);
  pathsLocalTemp : list string
}.

(** What a resolver call consults, in order. *)
Inductive Lookup : Type :=
  | CoreLookup (workName : WorkName) (fileExtensions : PyExt)
  | VirtualLookup (workName : string) (fileExtensions : PyExt).

(** What [getWork] returns: one path or URL, or a list of them. *)
Inductive Found : Type :=
  | OnePath (p : string)
  | PathList (l : list string).

(** A call into the logging, archive or file layer, as the compression
    routines make them. *)
Inductive SysCall : Type :=
  | Warn (msg : string)
  | ZipOpen (archive mode : string)
  | ZipWrite (archive filename archivedName : string)
  | ZipWriteStr (archive name bytes : string)
  | ZipExtract (archive member path : string)
  | ZipClose (archive : string)
  | OsRemove (filename : string).

Global Instance SysCall_eq_dec : EqDecision SysCall.
Proof. solve_decision. Defined.

(** The double quote and the line feed. *)
Definition dquote : string := String (Ascii.Ascii false true false false false true false false) "".
Definition newline : string := String (Ascii.Ascii false true false true false false false false) "".

(** The default [domain] of [getPaths]. *)
Definition all_domains : list string := ["local"; "core"; "virtual"].

(** ** A small corpus

    Concrete collaborators on which the model is run: a format table for
    three extensions, a core corpus of five files, two virtual works, and a
    path cache with entries of two domains. *)

Definition demo_findFormatExt (name : string) : option string * option string :=
  if PyStr.endswith name ".xml" then (Some "musicxml", Some ".xml")
  else if PyStr.endswith name ".mxl" then (Some "musicxml", Some ".mxl")
  else if PyStr.endswith name ".krn" then (Some "humdrum", Some ".krn")
  else (None, None).

Definition demo_core_paths (fileExtensions : PyExt) (expandExtensions : bool) : list string :=
  [ "/corpus/verdi/laDonnaEMobile.mxl";
    "/corpus/monteverdi/madrigal.3.1.xml";
    "/corpus/bach/bwv2/b.xml";
    "/corpus/bach/bwv2/a.krn";
    "/corpus/bach/bwv1.xml" ].

(** The same files, listed in another order. *)
Definition demo_core_paths_rev (fileExtensions : PyExt) (expandExtensions : bool) :
    list string :=
  reverse (demo_core_paths fileExtensions expandExtensions).

Definition demo_no_paths (fileExtensions : PyExt) (expandExtensions : bool) : list string :=
  [].

Definition demo_bwv1 : VirtualWork :=
  {| vw_corpusPath := Some "bach/bwv1";
     vw_composer := "Johann Sebastian Bach";
     vw_title := "Bwv 1";
     vw_urlList := ["http://kern.example.org/bach/bwv1.krn"] |}.

Definition demo_prelude : VirtualWork :=
  {| vw_corpusPath := Some "bach/bwv1007/prelude";
     vw_composer := "Johann Sebastian Bach";
     vw_title := "Prelude from Cello Suite No. 1";
     vw_urlList := ["http://kern.example.org/bach/bwv1007-01.krn";
                    "http://kern.example.org/bach/bwv1007-01.xml"] |}.

Definition demo_virtual : list VirtualWork := [demo_bwv1; demo_prelude].

(** [getUrlByExt] of the small corpus: every URL of the work. *)
Definition demo_getUrlByExt (vw : VirtualWork) (extList : PyExt) : list string :=
  vw_urlList vw.

Definition demo_composers : list (string * string) :=
  [ ("verdi", "Giuseppe Verdi"); ("bach", "Johann Sebastian Bach") ].

(** The core work list of the small corpus knows one name. *)
Definition demo_getWorkList (workName : WorkName) (movementNumber : option nat)
    (fileExtensions : PyExt) : list string :=
  match workName with
  | NameStr s =>
      if String.eqb s "haydn/opus74no2/movement4.mxl"
      then ["/corpus/haydn/opus74no2/movement4.mxl"] else []
  | NameSeq _ => []
  end.

Definition demo_path_join (a b : string) : string := a +:+ "/" +:+ b.

Definition demo_same (s : string) : string := s.

Definition demo_dict_lt (r1 r2 : Ref) : bool := false.

Definition demo_items (works : gmap string WorkDict) : list (string * WorkDict) :=
  map_to_list works.

(** The items of a dictionary in the opposite order. *)
Definition demo_items_rev (works : gmap string WorkDict) : list (string * WorkDict) :=
  reverse (map_to_list works).

Definition demo_exists (p : string) : bool := true.

Definition demo_state : ModuleState :=
  {| pathsCache :=
       [ ({| key_domain := "local"; key_rest := ["xml"] |}, ["/home/user/scores/a.xml"]);
         ({| key_domain := "core"; key_rest := [] |}, ["/corpus/bach/bwv1.xml"]);
         ({| key_domain := "local"; key_rest := ["krn"] |}, ["/home/user/scores/b.krn"]) ];
     pathsLocalTemp := ["/home/user/scores"] |}.

(** A listing whose directory is written [Bach]. *)
Definition demo_capital_paths (fileExtensions : PyExt) (expandExtensions : bool) :
    list string :=
  ["/corpus/Bach/bwv1.xml"].

(** An outside world in which every call returns. *)
Definition demo_outcome (h : list SysCall) (c : SysCall) : option PyError := None.

(** [os.path.splitext] on the names of the small corpus. *)
Definition demo_splitext (name : string) : string * string :=
  if PyStr.endswith name ".mxl" then (PyStr.take (String.length name - 4) name, ".mxl")
  else if PyStr.endswith name ".xml" then (PyStr.take (String.length name - 4) name, ".xml")
  else (name, "").

(** ** Path listings and composer matching *)

Section Corpus.
(** [os.sep] *)
Variable os_sep : ascii.
(** [corpora.CoreCorpus().getPaths], [corpora.LocalCorpus().getPaths] and
    [corpora.VirtualCorpus().getPaths], as functions of [fileExtensions]
    and [expandExtensions]. *)
Variable CoreCorpus_getPaths : PyExt -> bool -> list string.
Variable LocalCorpus_getPaths : PyExt -> bool -> list string.
Variable VirtualCorpus_getPaths : PyExt -> bool -> list string.

Definition getCorePaths (fileExtensions : PyExt) (expandExtensions : bool) : list string :=
  CoreCorpus_getPaths fileExtensions expandExtensions.

Definition getVirtualPaths (fileExtensions : PyExt) (expandExtensions : bool) : list string :=
  VirtualCorpus_getPaths fileExtensions expandExtensions.

Definition getLocalPaths (fileExtensions : PyExt) (expandExtensions : bool) : list string :=
  LocalCorpus_getPaths fileExtensions expandExtensions.

Definition getPaths (fileExtensions : PyExt) (expandExtensions : bool)
    (domain : list string) : list string :=
  let paths := [] in
  let paths :=
    if bool_decide ("local" ∈ domain)
    then paths ++ getLocalPaths fileExtensions expandExtensions else paths in
  let paths :=
    if bool_decide ("core" ∈ domain)
    then paths ++ CoreCorpus_getPaths fileExtensions expandExtensions else paths in
  let paths :=
    if bool_decide ("virtual" ∈ domain)
    then paths ++ getVirtualPaths fileExtensions expandExtensions else paths in
  paths.

(** The inner loop of [getComposer] over the components of one path:
    [true] when a [break] is reached, that is when the path is appended. *)
Fixpoint stubs_match (composerName : string) (stubs : list string) : bool :=
  match stubs with
  | [] => false
  | stub :: rest =>
      if String.eqb (PyStr.lower composerName) (PyStr.lower stub) then true
      else if PyStr.contains "." stub &&
              String.eqb (PyStr.lower (PyStr.join "." (removelast (PyStr.split_char "." stub))))
                         (PyStr.lower composerName)
      then true
      else stubs_match composerName rest
  end.

Definition getComposer (composerName : string) (fileExtensions : PyExt) : list string :=
  let paths := getPaths fileExtensions true all_domains in
  let results :=
    fold_left
      (fun results path =>
         if stubs_match composerName (PyStr.split_char os_sep path)
         then results ++ [path] else results)
      paths [] in
  py_sort PyStr.ltb results.

(** The matching rule in words: the segment is the composer name, or the
    segment is [pre.grp] where [grp] (the final dot-separated group) has
    no dot and [pre] is the composer name; both up to letter case. *)
Definition segment_names (composerName stub : string) : Prop :=
  PyStr.lower stub = PyStr.lower composerName \/
  exists pre grp,
    stub = pre +:+ String "." grp /\
    PyStr.contains "." grp = false /\
    PyStr.lower pre = PyStr.lower composerName.

(** [w] occurs in [s]: some text, then [w], then some text. *)
Definition is_substring (w s : string) : Prop :=
  exists pre post, s = pre +:+ w +:+ post.

(** ** The work resolver *)

(** The type of the [movementNumber] argument, which this module only
    passes on. *)
Variable Movement : Type.
(** [corpora.CoreCorpus().getWorkList] *)
Variable CoreCorpus_getWorkList : WorkName -> Movement -> PyExt -> list string.
(** The [virtual.VirtualWork] instances that the scan of the [virtual] module
    at import time constructs, in the order of [dir(virtual)]. *)
Variable virtual_objects : list VirtualWork.
(** The method [VirtualWork.getUrlByExt]. *)
Variable getUrlByExt : VirtualWork -> PyExt -> list string.

(** The module-level constant: the instances with a corpus path. *)
Definition VIRTUAL : list VirtualWork :=
  filter (fun obj => vw_corpusPath obj <> None) virtual_objects.

Definition getWorkList (workName : WorkName) (movementNumber : Movement)
    (fileExtensions : PyExt) : list string :=
  CoreCorpus_getWorkList workName movementNumber fileExtensions.

(** The loop of [getVirtualWorkList] over the registry: the first virtual
    work whose corpus path contains the name ends it. *)
Fixpoint virtual_scan (workName : string) (fileExtensions : PyExt)
    (objs : list VirtualWork) : list string :=
  match objs with
  | [] => []
  | obj :: rest =>
      match vw_corpusPath obj with
      | Some corpusPath =>
          if PyStr.contains (PyStr.lower workName) (PyStr.lower corpusPath)
          then getUrlByExt obj fileExtensions
          else virtual_scan workName fileExtensions rest
      | None => virtual_scan workName fileExtensions rest
      end
  end.

Definition getVirtualWorkList (workName : string) (movementNumber : Movement)
    (fileExtensions : PyExt) : list string :=
  let fileExtensions := listify fileExtensions in
  virtual_scan workName fileExtensions VIRTUAL.

(** A virtual work matches a name when its corpus path contains the name,
    letter case aside. *)
Definition vw_matches (workName : string) (obj : VirtualWork) : Prop :=
  exists corpusPath,
    vw_corpusPath obj = Some corpusPath /\
    is_substring (PyStr.lower workName) (PyStr.lower corpusPath).

(** The end of [getWork]: one match is returned bare, none is an error. *)
Definition arity (results : list string) : result Found :=
  match results with
  | [p] => Ok (OnePath p)
  | [] => Raise (CorpusException "Could not find a file/url that met these criteria")
  | _ => Ok (PathList results)
  end.

(** [os.path.sep.join(workName)] when the name is a sequence. *)
Definition joined_name (workName : WorkName) : string :=
  match workName with
  | NameStr s => s
  | NameSeq l => PyStr.join (String os_sep "") l
  end.

(** [getWork] calls itself; [limit] is the number of nested calls the
    interpreter still allows. The result comes with the lookups made. *)
Fixpoint getWork_rec (limit : nat) (workName : WorkName) (movementNumber : Movement)
    (fileExtensions : PyExt) : list Lookup * result Found :=
  match limit with
  | O => ([], Raise (RuntimeError "maximum recursion depth exceeded"))
  | S limit' =>
      let fileExtensions := listify fileExtensions in
      let results := getWorkList workName movementNumber fileExtensions in
      match results with
      | [] =>
          let name := joined_name workName in
          if PyStr.endswith name ".xml"
          then
            let newWorkName := PyStr.take (String.length name - 4) name +:+ ".mxl" in
            let '(trace, r) :=
              getWork_rec limit' (NameStr newWorkName) movementNumber fileExtensions in
            (CoreLookup workName fileExtensions :: trace, r)
          else
            let results := getVirtualWorkList name movementNumber fileExtensions in
            ([CoreLookup workName fileExtensions; VirtualLookup name fileExtensions],
             arity results)
      | _ => ([CoreLookup workName fileExtensions], arity results)
      end
  end.

(** [sys.getrecursionlimit()] of a default interpreter. *)
Definition recursion_limit : nat := 1000.

Definition getWork (workName : WorkName) (movementNumber : Movement)
    (fileExtensions : PyExt) : list Lookup * result Found :=
  getWork_rec recursion_limit workName movementNumber fileExtensions.

(** The outcomes the resolver allows: one bare path, a list of at least
    two, or [CorpusException]. *)
Definition resolver_outcome (r : result Found) : Prop :=
  (exists p, r = Ok (OnePath p)) \/
  (exists l, r = Ok (PathList l) /\ 2 <= length l) \/
  (exists msg, r = Raise (CorpusException msg)).

(** ** Registration of a local path *)

(** [os.path.exists] *)
Variable os_path_exists : string -> bool.
(** [environLocal['localCorpusSettings']] *)
Variable localCorpusSettings : list string.

(** [del _pathsCache[key]] *)
Definition cache_del (key : CacheKey) (cache : list (CacheKey * list string)) :
    list (CacheKey * list string) :=
  filter (fun entry => entry.1 <> key) cache.

(** The loop [for key in _pathsCache: if key[0] == 'local': del ...]. The
    dictionary iterator remembers in [used] the size of the dictionary when
    the loop started; every step first compares it with the present size and
    raises RuntimeError when they differ, then yields the next key or ends
    the loop. *)
Fixpoint purge_local (used : nat) (keys : list CacheKey)
    (cache : list (CacheKey * list string)) :
    list (CacheKey * list string) * result unit :=
  if negb (length cache =? used)%nat
  then (cache, Raise (RuntimeError "dictionary changed size during iteration"))
  else
    match keys with
    | [] => (cache, Ok tt)
    | key :: keys' =>
        if String.eqb (key_domain key) "local"
        then purge_local used keys' (cache_del key cache)
        else purge_local used keys' cache
    end.

Definition addPath (filePath : option string) (st : ModuleState) :
    ModuleState * result unit :=
  match filePath with
  | None => (st, Raise (CorpusException "an invalid file path has been provided"))
  | Some p =>
      if negb (os_path_exists p)
      then (st, Raise (CorpusException "an invalid file path has been provided"))
      else if bool_decide (p ∈ pathsLocalTemp st)
      then (st, Raise (CorpusException "the provided path has already been added"))
      else if bool_decide (p ∈ localCorpusSettings)
      then (st, Raise (CorpusException
                         "the provided path is already incldued in the Environment localCorpusSettings"))
      else
        let temp := pathsLocalTemp st ++ [p] in
        let '(cache, r) :=
          purge_local (length (pathsCache st)) (pathsCache st).*1 (pathsCache st) in
        ({| pathsCache := cache; pathsLocalTemp := temp |}, r)
  end.

(** The conditions under which [addPath] refuses a path. *)
Definition path_refused (filePath : option string) (st : ModuleState) : Prop :=
  filePath = None \/
  exists p, filePath = Some p /\
            (os_path_exists p = false \/ p ∈ pathsLocalTemp st \/ p ∈ localCorpusSettings).

(** ** The reference index *)

(** [corpora.CoreCorpus._composers]: the composer table the builder
    iterates, pairs of directory name and full name. *)
Variable CoreCorpus_composers : list (string * string).
(** [common.findFormatExtFile] and [common.findFormatExtURL]: the format and
    the extension of a file name or URL, each possibly [None]. *)
Variable findFormatExtFile : string -> option string * option string.
Variable findFormatExtURL : string -> option string * option string.
(** [common.spaceCamelCase] and [str.title]. *)
Variable spaceCamelCase : string -> string.
Variable str_title : string -> string.
(** [os.path.join] on two components. *)
Variable os_path_join : string -> string -> string.
(** The order in which iterating a dictionary yields its items. *)
Variable dict_items : gmap string WorkDict -> list (string * WorkDict).
(** The interpreter's [<] on two reference dictionaries that are not equal. *)
Variable dict_lt : Ref -> Ref -> bool.

(** [ref['works'][workStub]['files'].append(fileDict)] *)
Definition append_file (workStub : string) (fileDict : FileDict)
    (works : gmap string WorkDict) : gmap string WorkDict :=
  alter (fun w => {| wk_files := wk_files w ++ [fileDict];
                     wk_title := wk_title w;
                     wk_virtual := wk_virtual w |}) workStub works.

(** The body of the loop over the paths of one composer; [works] is
    [ref['works']]. *)
Definition add_core_path (composerDirectory : string) (works : gmap string WorkDict)
    (path : string) : result (gmap string WorkDict) :=
  match PyStr.split composerDirectory path with
  | None => Raise (ValueError "empty separator")
  | Some [junk; fileStub] =>
      let fileStub :=
        if PyStr.startswith fileStub (String os_sep "")
        then PyStr.drop 1 fileStub else fileStub in
      let fileComponents := PyStr.split_char os_sep fileStub in
      let '(m21Format, ext) := findFormatExtFile (List.last fileComponents "") in
      match ext with
      | None => Ok works
      | Some ext =>
          let workStub :=
            match m21Format with
            | None => hd "" fileComponents
            | Some _ => PyStr.replace (hd "" fileComponents) ext ""
            end in
          let works :=
            match works !! workStub with
            | None =>
                <[workStub := {| wk_files := [];
                                 wk_title := str_title (spaceCamelCase workStub);
                                 wk_virtual := false |}]> works
            | Some _ => works
            end in
          let fileDict :=
            {| fd_format := m21Format;
               fd_ext := Some ext;
               fd_corpusPath := os_path_join composerDirectory fileStub;
               fd_fileName := Some (List.last fileComponents "");
               fd_title :=
                 str_title (spaceCamelCase
                              (PyStr.replace (List.last fileComponents "") ext ""));
               fd_url := None |} in
          Ok (append_file workStub fileDict works)
      end
  | Some _ => Raise (ValueError "wrong number of values to unpack")
  end.

(** The body of the loop over the composer table. *)
Definition add_composer (results : list Ref) (entry : string * string) :
    result (list Ref) :=
  let '(composerDirectory, composer) := entry in
  works ← for_each (add_core_path composerDirectory)
                   (getComposer composerDirectory ExtNone) ∅;
  Ok (results ++ [ {| ref_composer := composer;
                      ref_composerDir := composerDirectory;
                      ref_works := works;
                      ref_sortedWorkKeys := None |} ]).

(** The file record of one URL of a virtual work. *)
Definition url_file (vw : VirtualWork) (corpusPath url : string) : FileDict :=
  let '(m21Format, ext) := findFormatExtURL url in
  {| fd_format := m21Format;
     fd_ext := ext;
     fd_corpusPath := corpusPath;
     fd_fileName := None;
     fd_title := vw_title vw;
     fd_url := Some url |}.

(** What the body of the loop over [VIRTUAL] does to [ref['works']]: the
    entry of the work stub is assigned anew, then the URLs are appended. *)
Definition add_virtual_work (vw : VirtualWork) (corpusPath workStub : string)
    (works : gmap string WorkDict) : gmap string WorkDict :=
  let works :=
    <[workStub := {| wk_files := []; wk_title := vw_title vw; wk_virtual := true |}]> works in
  fold_left (fun works url => append_file workStub (url_file vw corpusPath url) works)
            (vw_urlList vw) works.

(** The body of the loop over [VIRTUAL]. The reference that matches is
    changed in place, inside [results]. *)
Definition add_virtual (results : list Ref) (vw : VirtualWork) : result (list Ref) :=
  match vw_corpusPath vw with
  | None => Raise (AttributeError "'NoneType' object has no attribute 'split'")
  | Some corpusPath =>
      let composerDir := hd "" (PyStr.split_char "/" corpusPath) in
      let found :=
        list_find (fun ref => ref_composer ref = vw_composer vw \/
                              composerDir = ref_composerDir ref) results in
      let workStub := PyStr.replace corpusPath (composerDir +:+ "/") "" in
      match found with
      | Some (i, _) =>
          Ok (alter (fun ref => {| ref_composer := ref_composer ref;
                                   ref_composerDir := ref_composerDir ref;
                                   ref_works := add_virtual_work vw corpusPath workStub (ref_works ref);
                                   ref_sortedWorkKeys := ref_sortedWorkKeys ref |}) i results)
      | None =>
          Ok (results ++ [ {| ref_composer := vw_composer vw;
                              ref_composerDir := composerDir;
                              ref_works := add_virtual_work vw corpusPath workStub ∅;
                              ref_sortedWorkKeys := None |} ])
      end
  end.

(** [<] on the lists [[title, workStub]]: the first components that differ
    decide. *)
Definition title_key_lt (x y : string * string) : bool :=
  if decide (x.1 = y.1)
  then (if decide (x.2 = y.2) then false else PyStr.ltb x.2 y.2)
  else PyStr.ltb x.1 y.1.

(** [<] on the lists [[composerDir, ref]]. *)
Definition dir_ref_lt (x y : string * Ref) : bool :=
  if decide (x.1 = y.1)
  then (if decide (x.2 = y.2) then false else dict_lt x.2 y.2)
  else PyStr.ltb x.1 y.1.

(** The work keys of one reference, ordered by title and then by stub. *)
Definition sorted_work_keys (works : gmap string WorkDict) : list string :=
  let sortGroupSub := (fun item => (wk_title item.2, item.1)) <$> dict_items works in
  (py_sort title_key_lt sortGroupSub).*2.

Definition set_sorted_keys (ref : Ref) : Ref :=
  {| ref_composer := ref_composer ref;
     ref_composerDir := ref_composerDir ref;
     ref_works := ref_works ref;
     ref_sortedWorkKeys := Some (sorted_work_keys (ref_works ref)) |}.

Definition sort_results (results : list Ref) : list Ref :=
  let sortGroup := (fun ref => (ref_composerDir ref, set_sorted_keys ref)) <$> results in
  (py_sort dir_ref_lt sortGroup).*2.

Definition getWorkReferences (sort : bool) : result (list Ref) :=
  results ← for_each add_composer CoreCorpus_composers [];
  results ← for_each add_virtual VIRTUAL results;
  if sort then Ok (sort_results results) else Ok results.

(** Every entry of [works] is still in [works'], with the same title and
    flag, its file list grown at the end only. *)
Definition entries_extended (works works' : gmap string WorkDict) : Prop :=
  forall workStub w,
    works !! workStub = Some w ->
    exists w', works' !! workStub = Some w' /\
               wk_title w' = wk_title w /\
               wk_virtual w' = wk_virtual w /\
               wk_files w `prefix_of` wk_files w'.

(** The entry a virtual work leaves under its work stub. *)
Definition virtual_entry (vw : VirtualWork) (corpusPath : string) : WorkDict :=
  {| wk_files := url_file vw corpusPath <$> vw_urlList vw;
     wk_title := vw_title vw;
     wk_virtual := true |}.

(** The order of the lists [[title, workStub]]. *)
Definition title_key_le (x y : string * string) : Prop :=
  if decide (x.1 = y.1) then String.le x.2 y.2 else String.le x.1 y.1.

(** A file record made from a corpus file: it has a file name and an
    extension, and no URL. *)
Definition core_file (fd : FileDict) : Prop :=
  fd_url fd = None /\ is_Some (fd_fileName fd) /\ is_Some (fd_ext fd).

(** A file record made from a URL of a virtual work. *)
Definition url_record (fd : FileDict) : Prop :=
  is_Some (fd_url fd) /\ fd_fileName fd = None.

(** A work entry holds records of one kind: a virtual entry URL records, any
    other entry at least one corpus file and corpus files only. *)
Definition entry_ok (w : WorkDict) : Prop :=
  if wk_virtual w then Forall url_record (wk_files w)
  else wk_files w <> [] /\ Forall core_file (wk_files w).

(** The entries before sorting: no [sortedWorkKeys], every work of one kind. *)
Definition refs_ok (results : list Ref) : Prop :=
  Forall (fun ref => ref_sortedWorkKeys ref = None /\
                     map_Forall (fun _ w => entry_ok w) (ref_works ref)) results.

(** ** The corpus file path of a parsed stream *)

(** [common.getCorpusFilePath()] *)
Variable corpusFilePath : string.

(** [_addCorpusFilepath]: the value it stores in [streamObj.corpusFilepath]. *)
Definition _addCorpusFilepath (filePath : string) : string :=
  let lenCFP := String.length corpusFilePath + String.length (String os_sep "") in
  if PyStr.startswith filePath corpusFilePath
  then
    let fp2 := PyStr.drop lenCFP filePath in
    let dirsEtc := PyStr.split_char os_sep fp2 in
    let fp3 := PyStr.join "/" dirsEtc in
    fp3
  else filePath.

(** ** Compression

    The compression routines act through the logger, [zipfile] and [os]. A
    call to one of them is recorded in the history of calls, and whether it
    raises is up to the outside world, given the history so far. *)

(** The exception a call raises, if any, after the calls of the history. *)
Variable sys_outcome : list SysCall -> SysCall -> option PyError.
(** [os.path.splitext] *)
Variable os_path_splitext : string -> string * string.

(** A computation over the history of calls. *)
Definition Sys (A : Type) : Type := list SysCall -> list SysCall * result A.

Definition sys_ret {A} (a : A) : Sys A := fun h => (h, Ok a).

Definition sys_bind {A B} (m : Sys A) (k : A -> Sys B) : Sys B :=
  fun h =>
    match m h with
    | (h1, Ok a) => k a h1
    | (h1, Raise e) => (h1, Raise e)
    end.

Definition sys_call (c : SysCall) : Sys unit :=
  fun h =>
    (h ++ [c],
     match sys_outcome h c with
     | None => Ok tt
     | Some e => Raise e
     end).

(** [with zipfile.ZipFile(archive, mode, ...) as myZip: body]: the archive
    is closed when the body ends, also when it ends with an exception, which
    then goes on unless closing raises one itself. *)
Definition with_zip (archive mode : string) (body : Sys unit) : Sys unit :=
  fun h =>
    match sys_call (ZipOpen archive mode) h with
    | (h1, Raise e) => (h1, Raise e)
    | (h1, Ok _) =>
        match body h1 with
        | (h2, rb) =>
            match sys_call (ZipClose archive) h2 with
            | (h3, Raise e) => (h3, Raise e)
            | (h3, Ok _) => (h3, rb)
            end
        end
    end.

(** The text of [META-INF/container.xml]. *)
Definition container_xml (archivedName : string) : string :=
  "<?xml version=" +:+ dquote +:+ "1.0" +:+ dquote +:+ " encoding=" +:+ dquote +:+
  "UTF-8" +:+ dquote +:+ "?>" +:+ newline +:+
  "<container>" +:+ newline +:+
  "  <rootfiles>" +:+ newline +:+
  "    <rootfile full-path=" +:+ dquote +:+ archivedName +:+ dquote +:+ "/>" +:+ newline +:+
  "  </rootfiles>" +:+ newline +:+
  "</container>" +:+ newline +:+
  "    ".

Definition compressXML (filename : string) (deleteOriginal : bool) : Sys unit :=
  if negb (PyStr.endswith filename ".xml") then sys_ret tt
  else
    sys_bind (sys_call (Warn ("Updating file: " +:+ filename))) (fun _ =>
    let filenameList := PyStr.split_char os_sep filename in
    let archivedName := List.last filenameList "" in
    let filenameList :=
      removelast filenameList ++
      [PyStr.take (String.length archivedName - 4) archivedName +:+ ".mxl"] in
    let newFilename := PyStr.join (String os_sep "") filenameList in
    let container := container_xml archivedName in
    sys_bind
      (with_zip newFilename "w"
         (sys_bind (sys_call (ZipWrite newFilename filename archivedName)) (fun _ =>
          sys_call (ZipWriteStr newFilename
                      ("META-INF" +:+ String os_sep "" +:+ "container.xml") container))))
      (fun _ => if deleteOriginal then sys_call (OsRemove filename) else sys_ret tt)).

Definition uncompressMXL (filename : string) (deleteOriginal : bool) : Sys unit :=
  if negb (PyStr.endswith filename ".mxl") then sys_ret tt
  else
    sys_bind (sys_call (Warn ("Updating file: " +:+ filename))) (fun _ =>
    let filenames := PyStr.split_char os_sep filename in
    let archivedName := List.last filenames "" in
    let filenames := removelast filenames in
    let unarchivedName := (os_path_splitext archivedName).1 +:+ ".xml" in
    let extractPath := PyStr.join (String os_sep "") filenames in
    sys_bind
      (with_zip filename "r" (sys_call (ZipExtract filename unarchivedName extractPath)))
      (fun _ => if deleteOriginal then sys_call (OsRemove filename) else sys_ret tt)).

(** A [for] loop over calls to the outside. *)
Fixpoint sys_for_each {X} (body : X -> Sys unit) (l : list X) : Sys unit :=
  match l with
  | [] => sys_ret tt
  | x :: l' => sys_bind (body x) (fun _ => sys_for_each body l')
  end.

Definition compressAllXMLFiles (deleteOriginal : bool) : Sys unit :=
  sys_bind (sys_call (Warn "Compressing musicXML files...")) (fun _ =>
  sys_bind
    (sys_for_each (fun filename => compressXML filename deleteOriginal)
       (getPaths (ExtList [Some ".xml"]) true all_domains))
    (fun _ =>
  sys_call (Warn ("Compression complete. " +:+
                  "Run the main test suite, fix bugs if necessary," +:+
                  "and then commit modified directories in corpus.")))).

(** The calls of a list all return, when made one after another from the
    history [h]. *)
Fixpoint all_return (h : list SysCall) (calls : list SysCall) : Prop :=
  match calls with
  | [] => True
  | c :: calls' => sys_outcome h c = None /\ all_return (h ++ [c]) calls'
  end.

(** The calls [compressXML] makes to write the archive of [filename], named
    [archive], whose last path component is [archivedName]. *)
Definition compress_calls (archive filename archivedName : string) : list SysCall :=
  [ Warn ("Updating file: " +:+ filename);
    ZipOpen archive "w";
    ZipWrite archive filename archivedName;
    ZipWriteStr archive ("META-INF" +:+ String os_sep "" +:+ "container.xml")
                (container_xml archivedName);
    ZipClose archive ].

(** The calls [uncompressMXL] makes to extract [member] of the archive
    [filename] into [path]. *)
Definition uncompress_calls (filename member path : string) : list SysCall :=
  [ Warn ("Updating file: " +:+ filename);
    ZipOpen filename "r";
    ZipExtract filename member path;
    ZipClose filename ].

(** * Properties *)

Example lower_ex : PyStr.lower "MonteVerdi.XML" = "monteverdi.xml".
Proof. reflexivity. Qed.

Example split_ex1 : PyStr.split_char "/" "a/bc//d" = ["a"; "bc"; ""; "d"].
Proof. reflexivity. Qed.

Example split_ex2 : PyStr.split "bach" "/corpus/bach/bwv1.6.xml" = Some ["/corpus/"; "/bwv1.6.xml"].
Proof. reflexivity. Qed.

Example split_ex3 : PyStr.split "aa" "aaa" = Some [""; "a"].
Proof. reflexivity. Qed.

Example replace_ex : PyStr.replace "bwv1.6.xml" ".xml" "" = "bwv1.6".
Proof. reflexivity. Qed.

Example contains_ex : PyStr.contains "verdi" "monteverdi/x" = true.
Proof. reflexivity. Qed.

Example endswith_ex : PyStr.endswith "movement4.xml" ".xml" = true.
Proof. reflexivity. Qed.

(** ** Facts about the string operations *)

Section StrFacts.
Implicit Types (s t cur pre grp : string) (c a : ascii).

Lemma str_app_nil_l s : "" +:+ s = s.
Proof. reflexivity. Qed.

Lemma str_app_cons a s t : String a s +:+ t = String a (s +:+ t).
Proof. reflexivity. Qed.

Lemma str_app_nil_r s : s +:+ "" = s.
Proof. induction s as [|a s IH]; [done|]. by rewrite str_app_cons, IH. Qed.

Lemma str_app_assoc s t u : (s +:+ t) +:+ u = s +:+ (t +:+ u).
Proof. induction s as [|a s IH]; [done|]. by rewrite !str_app_cons, IH. Qed.

Lemma str_app_snoc cur a s : (cur +:+ String a "") +:+ s = cur +:+ String a s.
Proof. by rewrite str_app_assoc. Qed.

Lemma prefix_empty s : String.prefix "" s = true.
Proof. by destruct s. Qed.

Lemma prefix_char c a s :
  String.prefix (String c "") (String a s) = bool_decide (c = a).
Proof.
  simpl. destruct (ascii_dec c a) as [-> |Hne].
  - by rewrite prefix_empty, bool_decide_eq_true_2.
  - by rewrite bool_decide_eq_false_2.
Qed.

Lemma split_go_char_cons c cur a s :
  PyStr.split_go (String c "") 0 cur (String a s) =
  if bool_decide (c = a)
  then cur :: PyStr.split_go (String c "") 0 "" s
  else PyStr.split_go (String c "") 0 (cur +:+ String a "") s.
Proof.
  change (PyStr.split_go (String c "") 0 cur (String a s))
    with (if String.prefix (String c "") (String a s)
          then cur :: PyStr.split_go (String c "") 0 "" s
          else PyStr.split_go (String c "") 0 (cur +:+ String a "") s).
  by rewrite prefix_char.
Qed.

Lemma contains_char_cons c a s :
  PyStr.contains (String c "") (String a s) =
  bool_decide (c = a) || PyStr.contains (String c "") s.
Proof.
  change (PyStr.contains (String c "") (String a s))
    with (String.prefix (String c "") (String a s) || PyStr.contains (String c "") s).
  by rewrite prefix_char.
Qed.

Lemma contains_char_nil c : PyStr.contains (String c "") "" = false.
Proof. reflexivity. Qed.

(** A piece without the separator is not split. *)
Lemma split_go_char_free c s : forall cur,
  PyStr.contains (String c "") s = false ->
  PyStr.split_go (String c "") 0 cur s = [cur +:+ s].
Proof.
  induction s as [|a s IH]; intros cur H.
  - simpl. by rewrite str_app_nil_r.
  - rewrite contains_char_cons in H. apply orb_false_iff in H as [Ha Hs].
    rewrite split_go_char_cons, Ha, (IH _ Hs). by rewrite str_app_snoc.
Qed.

(** Splitting at the last separator: the pieces of what precedes it,
    then the final group. *)
Lemma split_go_char_last c grp pre : forall cur,
  PyStr.contains (String c "") grp = false ->
  PyStr.split_go (String c "") 0 cur (pre +:+ String c grp) =
  PyStr.split_go (String c "") 0 cur pre ++ [grp].
Proof.
  intros cur Hgrp. revert cur.
  induction pre as [|a pre IH]; intros cur.
  - change ("" +:+ String c grp) with (String c grp).
    rewrite split_go_char_cons, bool_decide_eq_true_2 by done.
    by rewrite (split_go_char_free _ _ _ Hgrp).
  - change (String a pre +:+ String c grp) with (String a (pre +:+ String c grp)).
    rewrite !split_go_char_cons. destruct (bool_decide (c = a)).
    + by rewrite IH.
    + by rewrite IH.
Qed.

Lemma split_go_nonempty sep s : forall skip cur, PyStr.split_go sep skip cur s <> [].
Proof.
  induction s as [|a s IH]; intros skip cur; [done|].
  destruct skip as [|k].
  - change (PyStr.split_go sep 0 cur (String a s))
      with (if String.prefix sep (String a s)
            then cur :: PyStr.split_go sep (String.length sep - 1) "" s
            else PyStr.split_go sep 0 (cur +:+ String a "") s).
    destruct (String.prefix sep (String a s)); [done|apply IH].
  - apply (IH k cur).
Qed.

Lemma join_cons sep x y l :
  PyStr.join sep (x :: y :: l) = x +:+ sep +:+ PyStr.join sep (y :: l).
Proof. reflexivity. Qed.

(** Joining the pieces with the separator gives the string back. *)
Lemma join_split_go_char c s : forall cur,
  PyStr.join (String c "") (PyStr.split_go (String c "") 0 cur s) = cur +:+ s.
Proof.
  induction s as [|a s IH]; intros cur.
  - simpl. by rewrite str_app_nil_r.
  - rewrite split_go_char_cons. destruct (bool_decide (c = a)) eqn:E.
    + apply bool_decide_eq_true_1 in E as <-.
      specialize (IH "").
      destruct (PyStr.split_go (String c "") 0 "" s) as [|y l] eqn:Es.
      * by apply split_go_nonempty in Es.
      * by rewrite join_cons, IH.
    + by rewrite IH, str_app_snoc.
Qed.

(** All but the last dot-separated group is the text before the last dot. *)
Lemma all_but_last_group c pre grp :
  PyStr.contains (String c "") grp = false ->
  PyStr.join (String c "") (removelast (PyStr.split_char c (pre +:+ String c grp))) = pre.
Proof.
  intros Hgrp. unfold PyStr.split_char.
  rewrite (split_go_char_last _ _ _ _ Hgrp), removelast_last.
  by rewrite join_split_go_char.
Qed.

Lemma contains_char_app c pre grp :
  PyStr.contains (String c "") (pre +:+ String c grp) = true.
Proof.
  induction pre as [|a pre IH].
  - change ("" +:+ String c grp) with (String c grp).
    by rewrite contains_char_cons, bool_decide_eq_true_2.
  - change (String a pre +:+ String c grp) with (String a (pre +:+ String c grp)).
    rewrite contains_char_cons, IH. apply orb_true_r.
Qed.

(** A string that contains the separator divides at its last occurrence. *)
Lemma contains_char_last c s :
  PyStr.contains (String c "") s = true ->
  exists pre grp, s = pre +:+ String c grp /\ PyStr.contains (String c "") grp = false.
Proof.
  induction s as [|a s IH]; [done|].
  rewrite contains_char_cons. intros H.
  destruct (PyStr.contains (String c "") s) eqn:Es.
  - destruct (IH eq_refl) as (pre & grp & -> & Hg).
    by exists (String a pre), grp.
  - rewrite orb_false_r in H. apply bool_decide_eq_true_1 in H as <-.
    by exists "", s.
Qed.

Lemma lower_app s t : PyStr.lower (s +:+ t) = PyStr.lower s +:+ PyStr.lower t.
Proof.
  induction s as [|a s IH]; [done|].
  rewrite str_app_cons. simpl. by rewrite IH, str_app_cons.
Qed.

Lemma lower_length s : String.length (PyStr.lower s) = String.length s.
Proof. induction s; simpl; congruence. Qed.
End StrFacts.


(** ** Facts about suffixes *)

Section SuffixFacts.
Implicit Types (s t pre suf : string).

Lemma str_length_app s t : String.length (s +:+ t) = String.length s + String.length t.
Proof.
  induction s as [|a s IH]; [done|]. rewrite str_app_cons. simpl. by rewrite IH.
Qed.

Lemma endswith_nil suf : PyStr.endswith "" suf = String.eqb "" suf.
Proof. simpl. apply orb_false_r. Qed.

Lemma endswith_cons a s suf :
  PyStr.endswith (String a s) suf = String.eqb (String a s) suf || PyStr.endswith s suf.
Proof. reflexivity. Qed.

Lemma endswith_refl s : PyStr.endswith s s = true.
Proof.
  destruct s as [|a s]; [done|]. by rewrite endswith_cons, String.eqb_refl.
Qed.

Lemma endswith_app pre suf : PyStr.endswith (pre +:+ suf) suf = true.
Proof.
  induction pre as [|a pre IH].
  - apply endswith_refl.
  - rewrite str_app_cons, endswith_cons, IH. apply orb_true_r.
Qed.

Lemma endswith_spec s suf :
  PyStr.endswith s suf = true <-> exists pre, s = pre +:+ suf.
Proof.
  split.
  - induction s as [|a s IH].
    + rewrite endswith_nil. intros H. apply String.eqb_eq in H as <-. by exists "".
    + rewrite endswith_cons. intros H. apply orb_true_iff in H as [H|H].
      * apply String.eqb_eq in H as <-. by exists "".
      * destruct (IH H) as [pre ->]. by exists (String a pre).
  - intros [pre ->]. apply endswith_app.
Qed.

(** Two decompositions with suffixes of one length agree. *)
Lemma str_app_inj_suffix s1 : forall s2 t1 t2,
  String.length t1 = String.length t2 ->
  s1 +:+ t1 = s2 +:+ t2 -> s1 = s2 /\ t1 = t2.
Proof.
  induction s1 as [|a s1 IH]; intros [|b s2] t1 t2 Hlen H.
  - done.
  - rewrite str_app_nil_l in H. subst t1.
    rewrite str_app_cons in Hlen. simpl in Hlen. rewrite str_length_app in Hlen. lia.
  - rewrite str_app_nil_l in H. subst t2.
    rewrite str_app_cons in Hlen. simpl in Hlen. rewrite str_length_app in Hlen. lia.
  - rewrite !str_app_cons in H. injection H as -> H.
    destruct (IH _ _ _ Hlen H) as [-> ->]. done.
Qed.

Lemma take_app s t : PyStr.take (String.length s) (s +:+ t) = s.
Proof.
  unfold PyStr.take. induction s as [|a s IH].
  - rewrite str_app_nil_l. by destruct t.
  - rewrite str_app_cons. simpl. by rewrite IH.
Qed.

(** [name[0:len(name) - 4]] of a name that ends in a four-character suffix. *)
Lemma take_stem stem suf :
  String.length suf = 4 ->
  PyStr.take (String.length (stem +:+ suf) - 4) (stem +:+ suf) = stem.
Proof.
  intros H. rewrite str_length_app, H.
  replace (String.length stem + 4 - 4) with (String.length stem) by lia.
  apply take_app.
Qed.

Lemma mxl_not_xml stem : PyStr.endswith (stem +:+ ".mxl") ".xml" = false.
Proof.
  destruct (PyStr.endswith (stem +:+ ".mxl") ".xml") eqn:E; [|done].
  apply endswith_spec in E as [pre E].
  apply str_app_inj_suffix in E as [_ E]; [discriminate E|done].
Qed.
End SuffixFacts.

(** ** Facts about substrings *)

Section SubstringFacts.
Implicit Types (w s pre post : string).

Lemma prefix_spec w : forall s,
  String.prefix w s = true <-> exists post, s = w +:+ post.
Proof.
  induction w as [|a w IH]; intros s.
  - rewrite prefix_empty. split; [|done]. intros _. by exists s.
  - destruct s as [|b s].
    + split; [done|]. intros [post H]. by rewrite str_app_cons in H.
    + simpl String.prefix. destruct (ascii_dec a b) as [-> |Hne].
      * rewrite IH. split.
        -- intros [post ->]. by exists post.
        -- intros [post H]. rewrite str_app_cons in H. injection H as ->. by exists post.
      * split; [done|]. intros [post H]. rewrite str_app_cons in H. congruence.
Qed.

Lemma contains_nil w : PyStr.contains w "" = String.prefix w "".
Proof. simpl. apply orb_false_r. Qed.

Lemma contains_cons w a s :
  PyStr.contains w (String a s) = String.prefix w (String a s) || PyStr.contains w s.
Proof. reflexivity. Qed.

(** [contains] decides the occurrence of [w] inside [s]. *)
Lemma contains_spec w s : PyStr.contains w s = true <-> is_substring w s.
Proof.
  unfold is_substring. split.
  - induction s as [|a s IH].
    + rewrite contains_nil, prefix_spec. intros [post H]. by exists "", post.
    + rewrite contains_cons. intros H. apply orb_true_iff in H as [H|H].
      * apply prefix_spec in H as [post H]. by exists "", post.
      * destruct (IH H) as (pre & post & ->). by exists (String a pre), post.
  - intros (pre & post & ->). induction pre as [|a pre IH].
    + rewrite str_app_nil_l. destruct (w +:+ post) as [|b t] eqn:E.
      * rewrite contains_nil. apply prefix_spec. exists post. done.
      * rewrite contains_cons. apply orb_true_iff. left.
        apply prefix_spec. by exists post.
    + rewrite str_app_cons, contains_cons, IH. apply orb_true_r.
Qed.
End SubstringFacts.
(** ** Facts about [list.sort()] *)

Section PySortFacts.
Context {A : Type} (lt : A -> A -> bool).

Lemma insert_sorted_perm x l : insert_sorted lt x l ≡ₚ x :: l.
Proof.
  induction l as [|y l IH]; simpl; [done|].
  destruct (lt x y); [done|]. rewrite IH. apply Permutation_swap.
Qed.

Lemma py_sort_acc_perm l acc :
  fold_left (fun acc x => insert_sorted lt x acc) l acc ≡ₚ acc ++ l.
Proof.
  revert acc; induction l as [|x l IH]; intros acc; simpl.
  - by rewrite app_nil_r.
  - rewrite IH, insert_sorted_perm. simpl. apply Permutation_middle.
Qed.

Lemma py_sort_perm l : py_sort lt l ≡ₚ l.
Proof. unfold py_sort. by rewrite py_sort_acc_perm. Qed.

Lemma py_sort_elem x l : x ∈ py_sort lt l ↔ x ∈ l.
Proof. by rewrite py_sort_perm. Qed.

(** Sortedness with respect to any preorder [le] that [lt] decides. *)
Section Sortedness.
Variable le : A -> A -> Prop.
Hypothesis lt_le : forall x y, lt x y = true -> le x y.
Hypothesis nlt_le : forall x y, lt x y = false -> le y x.
Hypothesis le_trans : forall x y z, le x y -> le y z -> le x z.

Lemma insert_sorted_sorted x l :
  StronglySorted le l -> StronglySorted le (insert_sorted lt x l).
Proof.
  induction 1 as [|y l Hl IH Hy]; simpl.
  - repeat constructor.
  - destruct (lt x y) eqn:E.
    + constructor; [by constructor|].
      constructor; [by apply lt_le|].
      eapply Forall_impl; [exact Hy|]. intros z Hz.
      eapply le_trans; [|exact Hz]. by apply lt_le.
    + constructor; [exact IH|].
      rewrite insert_sorted_perm. constructor; [by apply nlt_le|done].
Qed.

Lemma py_sort_acc_sorted l acc :
  StronglySorted le acc ->
  StronglySorted le (fold_left (fun acc x => insert_sorted lt x acc) l acc).
Proof.
  revert acc; induction l as [|x l IH]; intros acc Hacc; simpl; [done|].
  apply IH. by apply insert_sorted_sorted.
Qed.

Lemma py_sort_sorted l : StronglySorted le (py_sort lt l).
Proof. apply py_sort_acc_sorted. constructor. Qed.
End Sortedness.
End PySortFacts.

(** ** The order on strings

    [String.le] is stdpp's lexicographic order on character codes, the
    order Python's [<] on strings decides. *)

Lemma str_ltb_le s1 s2 : PyStr.ltb s1 s2 = true -> String.le s1 s2.
Proof.
  unfold PyStr.ltb, String.ltb, String.le, String.leb.
  by destruct (String.compare s1 s2).
Qed.

Lemma str_nltb_le s1 s2 : PyStr.ltb s1 s2 = false -> String.le s2 s1.
Proof.
  unfold PyStr.ltb, String.ltb, String.le, String.leb.
  rewrite (String.compare_antisym s2 s1).
  by destruct (String.compare s1 s2).
Qed.

Lemma str_le_trans s1 s2 s3 : String.le s1 s2 -> String.le s2 s3 -> String.le s1 s3.
Proof. intros ??. by etrans. Qed.

Lemma py_sort_str_sorted (l : list string) :
  StronglySorted String.le (py_sort PyStr.ltb l).
Proof.
  apply py_sort_sorted.
  - apply str_ltb_le.
  - apply str_nltb_le.
  - apply str_le_trans.
Qed.

(** ** Composer matching *)

Lemma stubs_match_spec composerName stubs :
  stubs_match composerName stubs = true <->
  exists stub, stub ∈ stubs /\ segment_names composerName stub.
Proof.
  induction stubs as [|stub rest IH]; simpl.
  - split; [done|]. intros (stub & Hin & _). by apply elem_of_nil in Hin.
  - destruct (String.eqb_spec (PyStr.lower composerName) (PyStr.lower stub)) as [E|NE].
    { split; [|done]. intros _. exists stub. split; [left|by left]. }
    destruct (PyStr.contains "." stub) eqn:Hdot; simpl.
    + destruct (String.eqb_spec
                  (PyStr.lower (PyStr.join "." (removelast (PyStr.split_char "." stub))))
                  (PyStr.lower composerName)) as [E2|NE2].
      * split; [|done]. intros _. exists stub. split; [left|].
        right. destruct (contains_char_last _ _ Hdot) as (pre & grp & -> & Hg).
        exists pre, grp. split; [done|]. split; [done|].
        by rewrite (all_but_last_group _ _ _ Hg) in E2.
      * rewrite IH. split.
        -- intros (s & Hin & Hs). exists s. split; [by right|done].
        -- intros (s & Hin & Hs). apply elem_of_cons in Hin as [-> |Hin]; [|by eauto].
           destruct Hs as [Hs|(pre & grp & -> & Hg & Hp)]; [by symmetry in Hs|].
           by rewrite (all_but_last_group _ _ _ Hg) in NE2.
    + rewrite IH. split.
      * intros (s & Hin & Hs). exists s. split; [by right|done].
      * intros (s & Hin & Hs). apply elem_of_cons in Hin as [-> |Hin]; [|by eauto].
        destruct Hs as [Hs|(pre & grp & -> & Hg & Hp)]; [by symmetry in Hs|].
        by rewrite contains_char_app in Hdot.
Qed.

Lemma filter_loop_elem {A} (P : A -> bool) (x : A) l : forall acc,
  x ∈ fold_left (fun results y => if P y then results ++ [y] else results) l acc <->
  x ∈ acc \/ (x ∈ l /\ P x = true).
Proof.
  induction l as [|y l IH]; intros acc; simpl.
  - split; [by left|]. intros [H|[H _]]; [done|]. by apply elem_of_nil in H.
  - rewrite IH, elem_of_cons. destruct (P y) eqn:Ey.
    + rewrite elem_of_app, list_elem_of_singleton. split.
      * intros [[H| ->]|H]; [by left|right; split; auto|right; split; [right|]; apply H].
      * intros [H|[[-> |H] HP]]; [left; by left|left; by right|by right].
    + split.
      * intros [H|[H HP]]; [by left|right; split; [by right|done]].
      * intros [H|[[-> |H] HP]]; [by left|congruence|by right].
Qed.

Lemma getComposer_elem composerName fileExtensions path :
  path ∈ getComposer composerName fileExtensions <->
  path ∈ getPaths fileExtensions true all_domains /\
  stubs_match composerName (PyStr.split_char os_sep path) = true.
Proof.
  unfold getComposer. rewrite py_sort_elem.
  rewrite (filter_loop_elem (fun p => stubs_match composerName (PyStr.split_char os_sep p))).
  split; [|by right]. intros [H|H]; [|done]. by apply elem_of_nil in H.
Qed.


Lemma monteverdi_is_not_verdi stub :
  PyStr.lower stub = "monteverdi" -> ~ segment_names "verdi" stub.
Proof.
  intros Hm [H|(pre & grp & -> & _ & Hpre)].
  - rewrite Hm in H. discriminate H.
  - rewrite lower_app, Hpre in Hm. discriminate Hm.
Qed.

(** C2. A path of the listing is returned by [getComposer] exactly when one
    of its segments is the composer name, or is the composer name followed by
    one final dot-separated group, letter case aside; so a segment
    "monteverdi" never qualifies a path for "verdi". The returned list is in
    ascending order of the path strings. *)
Theorem getComposer_full_segment_match composerName fileExtensions :
  (forall path,
      path ∈ getComposer composerName fileExtensions <->
      path ∈ getPaths fileExtensions true all_domains /\
      exists stub, stub ∈ PyStr.split_char os_sep path /\
                   segment_names composerName stub) /\
  (forall stub, PyStr.lower stub = "monteverdi" -> ~ segment_names "verdi" stub) /\
  (forall path,
      path ∈ getComposer "verdi" fileExtensions ->
      exists stub, stub ∈ PyStr.split_char os_sep path /\
                   segment_names "verdi" stub /\
                   PyStr.lower stub <> "monteverdi") /\
  StronglySorted String.le (getComposer composerName fileExtensions).
Proof.
  split; [|split; [|split]].
  - intros path. by rewrite getComposer_elem, stubs_match_spec.
  - apply monteverdi_is_not_verdi.
  - intros path Hin. apply getComposer_elem in Hin as [_ Hm].
    apply stubs_match_spec in Hm as (stub & Hin & Hs).
    exists stub. split; [done|]. split; [done|].
    intros Hl. by apply (monteverdi_is_not_verdi stub).
  - apply py_sort_str_sorted.
Qed.

(** ** The work resolver *)

Lemma arity_cases results :
  (exists p, results = [p] /\ arity results = Ok (OnePath p)) \/
  (2 <= length results /\ arity results = Ok (PathList results)) \/
  (results = [] /\ exists msg, arity results = Raise (CorpusException msg)).
Proof.
  destruct results as [|p [|q l]].
  - right; right. split; [done|]. by eexists.
  - left. by exists p.
  - right; left. split; [simpl; lia|done].
Qed.

(** The three outcomes the resolver allows. *)
Lemma arity_outcome results : resolver_outcome (arity results).
Proof.
  destruct (arity_cases results) as [(p & _ & ->)|[(Hlen & ->)|(_ & msg & ->)]].
  - left. by exists p.
  - right; left. by exists results.
  - right; right. by exists msg.
Qed.

(** A call whose name does not end in [.xml] makes no nested call. *)
Lemma getWork_rec_no_retry n workName movementNumber fileExtensions :
  PyStr.endswith (joined_name workName) ".xml" = false ->
  getWork_rec (S n) workName movementNumber fileExtensions =
  match getWorkList workName movementNumber (listify fileExtensions) with
  | [] =>
      ([CoreLookup workName (listify fileExtensions);
        VirtualLookup (joined_name workName) (listify fileExtensions)],
       arity (getVirtualWorkList (joined_name workName) movementNumber
                                 (listify fileExtensions)))
  | results => ([CoreLookup workName (listify fileExtensions)], arity results)
  end.
Proof.
  intros H. simpl. rewrite H.
  by destruct (getWorkList workName movementNumber (listify fileExtensions)).
Qed.

Lemma getWork_rec_no_retry_limit n m workName movementNumber fileExtensions :
  PyStr.endswith (joined_name workName) ".xml" = false ->
  getWork_rec (S n) workName movementNumber fileExtensions =
  getWork_rec (S m) workName movementNumber fileExtensions.
Proof. intros H. by rewrite !getWork_rec_no_retry. Qed.

Lemma getWork_rec_no_retry_outcome n workName movementNumber fileExtensions :
  PyStr.endswith (joined_name workName) ".xml" = false ->
  resolver_outcome (getWork_rec (S n) workName movementNumber fileExtensions).2.
Proof.
  intros H. rewrite getWork_rec_no_retry by done.
  destruct (getWorkList workName movementNumber (listify fileExtensions)) eqn:E.
  - apply arity_outcome.
  - apply arity_outcome.
Qed.

(** The nested call of a name that ends in [.xml]. *)
Lemma getWork_rec_retry n workName movementNumber fileExtensions stem :
  getWorkList workName movementNumber (listify fileExtensions) = [] ->
  joined_name workName = stem +:+ ".xml" ->
  getWork_rec (S n) workName movementNumber fileExtensions =
  (CoreLookup workName (listify fileExtensions) ::
     (getWork_rec n (NameStr (stem +:+ ".mxl")) movementNumber (listify fileExtensions)).1,
   (getWork_rec n (NameStr (stem +:+ ".mxl")) movementNumber (listify fileExtensions)).2).
Proof.
  intros Hnone Hname. simpl. rewrite Hnone, Hname, endswith_app.
  rewrite (take_stem stem ".xml") by done.
  by destruct (getWork_rec n (NameStr (stem +:+ ".mxl")) movementNumber
                 (listify fileExtensions)).
Qed.

Lemma getWork_rec_outcome n workName movementNumber fileExtensions :
  resolver_outcome (getWork_rec (S (S n)) workName movementNumber fileExtensions).2.
Proof.
  destruct (PyStr.endswith (joined_name workName) ".xml") eqn:Hx;
    [|by apply getWork_rec_no_retry_outcome].
  destruct (getWorkList workName movementNumber (listify fileExtensions)) as [|p l] eqn:Hl.
  - apply endswith_spec in Hx as [stem Hx].
    rewrite (getWork_rec_retry _ _ _ _ stem) by done. simpl snd.
    apply getWork_rec_no_retry_outcome. apply mxl_not_xml.
  - cbn [getWork_rec]. rewrite Hl. apply arity_outcome.
Qed.

(** A call that raises has looked the name up in the core corpus and then
    in the virtual registry, and found nothing in either. *)
Lemma getWork_rec_no_retry_raise n workName movementNumber fileExtensions e :
  PyStr.endswith (joined_name workName) ".xml" = false ->
  (getWork_rec (S n) workName movementNumber fileExtensions).2 = Raise e ->
  getWorkList workName movementNumber (listify fileExtensions) = [] /\
  getVirtualWorkList (joined_name workName) movementNumber (listify fileExtensions) = [] /\
  last (getWork_rec (S n) workName movementNumber fileExtensions).1 =
    Some (VirtualLookup (joined_name workName) (listify fileExtensions)).
Proof.
  intros Hx. rewrite getWork_rec_no_retry by done.
  destruct (getWorkList workName movementNumber (listify fileExtensions)) as [|p l] eqn:Hl.
  - cbn [fst snd]. intros Hr. split; [done|]. split; [|done].
    destruct (arity_cases (getVirtualWorkList (joined_name workName) movementNumber
                (listify fileExtensions))) as [(p & _ & H)|[(_ & H)|(H & _)]];
      [rewrite H in Hr; discriminate Hr|rewrite H in Hr; discriminate Hr|exact H].
  - cbn [fst snd]. intros Hr.
    destruct (arity_cases (p :: l)) as [(q & _ & H)|[(_ & H)|(H & _)]];
      [rewrite H in Hr; discriminate Hr|rewrite H in Hr; discriminate Hr|discriminate H].
Qed.

Lemma listify_idemp fileExtensions : listify (listify fileExtensions) = listify fileExtensions.
Proof. by destruct fileExtensions. Qed.

Lemma getWork_rec_raise n workName movementNumber fileExtensions e :
  (getWork_rec (S (S n)) workName movementNumber fileExtensions).2 = Raise e ->
  getWorkList workName movementNumber (listify fileExtensions) = [] /\
  exists name,
    getVirtualWorkList name movementNumber (listify fileExtensions) = [] /\
    last (getWork_rec (S (S n)) workName movementNumber fileExtensions).1 =
      Some (VirtualLookup name (listify fileExtensions)).
Proof.
  destruct (PyStr.endswith (joined_name workName) ".xml") eqn:Hx.
  - destruct (getWorkList workName movementNumber (listify fileExtensions)) as [|p l] eqn:Hl.
    + apply endswith_spec in Hx as [stem Hx].
      rewrite (getWork_rec_retry _ _ _ _ stem) by done. cbn [fst snd].
      intros Hr. split; [done|].
      apply getWork_rec_no_retry_raise in Hr as (_ & Hv & Hlast); [|apply mxl_not_xml].
      rewrite listify_idemp in Hv, Hlast.
      exists (joined_name (NameStr (stem +:+ ".mxl"))). split; [done|].
      destruct (getWork_rec (S n) (NameStr (stem +:+ ".mxl")) movementNumber
                  (listify fileExtensions)).1; [discriminate Hlast|exact Hlast].
    + cbn [getWork_rec]. rewrite Hl. cbn [fst snd]. intros Hr.
      destruct (arity_cases (p :: l)) as [(q & _ & H)|[(_ & H)|(H & _)]];
        [rewrite H in Hr; discriminate Hr|rewrite H in Hr; discriminate Hr|discriminate H].
  - intros Hr. apply getWork_rec_no_retry_raise in Hr as (Hc & Hv & Hlast); [|done].
    split; [done|]. by exists (joined_name workName).
Qed.

(** [getWork] starts with room for nested calls. *)
Lemma getWork_limit workName movementNumber fileExtensions :
  getWork workName movementNumber fileExtensions =
  getWork_rec (S (S 998)) workName movementNumber fileExtensions.
Proof. reflexivity. Qed.

(** C1. Whatever the identifier, the movement and the extensions, [getWork]
    returns one bare path or URL, or a list of at least two, or raises
    [CorpusException]; it returns no empty list. When it raises, the core
    corpus had no match and the last lookup, in the virtual registry, had
    none either. *)
Theorem getWork_one_many_or_fail workName movementNumber fileExtensions :
  ((exists p, (getWork workName movementNumber fileExtensions).2 = Ok (OnePath p)) \/
   (exists l, (getWork workName movementNumber fileExtensions).2 = Ok (PathList l) /\
              2 <= length l) \/
   (exists msg, (getWork workName movementNumber fileExtensions).2 =
                Raise (CorpusException msg))) /\
  (getWork workName movementNumber fileExtensions).2 <> Ok (PathList []) /\
  (forall e, (getWork workName movementNumber fileExtensions).2 = Raise e ->
     getWorkList workName movementNumber (listify fileExtensions) = [] /\
     exists name,
       getVirtualWorkList name movementNumber (listify fileExtensions) = [] /\
       last (getWork workName movementNumber fileExtensions).1 =
         Some (VirtualLookup name (listify fileExtensions))).
Proof.
  rewrite getWork_limit.
  pose proof (getWork_rec_outcome 998 workName movementNumber fileExtensions) as Hr.
  split; [exact Hr|]. split.
  - intros E. rewrite E in Hr.
    destruct Hr as [(p & H)|[(l & H & Hlen)|(msg & H)]]; try discriminate H.
    injection H as <-. simpl in Hlen. lia.
  - intros e He.
    exact (getWork_rec_raise 998 workName movementNumber fileExtensions e He).
Qed.

(** C3. When the core corpus has no match for the identifier and its name
    (joined with the path separator when it is a sequence) ends in [.xml],
    [getWork] answers with the whole resolution of the name whose final
    [.xml] is replaced by [.mxl]; the virtual registry is looked up only
    inside that second resolution. *)
Theorem getWork_xml_retry workName movementNumber fileExtensions stem :
  getWorkList workName movementNumber (listify fileExtensions) = [] ->
  joined_name workName = stem +:+ ".xml" ->
  getWork workName movementNumber fileExtensions =
  (CoreLookup workName (listify fileExtensions) ::
     (getWork (NameStr (stem +:+ ".mxl")) movementNumber (listify fileExtensions)).1,
   (getWork (NameStr (stem +:+ ".mxl")) movementNumber (listify fileExtensions)).2).
Proof.
  intros Hnone Hname. unfold getWork, recursion_limit.
  rewrite (getWork_rec_retry _ _ _ _ stem) by done.
  by rewrite (getWork_rec_no_retry_limit 998 999) by apply mxl_not_xml.
Qed.

(** ** The virtual work list *)

Lemma virtual_scan_step workName fileExtensions obj rest :
  virtual_scan workName fileExtensions (obj :: rest) =
  match vw_corpusPath obj with
  | Some corpusPath =>
      if PyStr.contains (PyStr.lower workName) (PyStr.lower corpusPath)
      then getUrlByExt obj fileExtensions
      else virtual_scan workName fileExtensions rest
  | None => virtual_scan workName fileExtensions rest
  end.
Proof. reflexivity. Qed.

Lemma virtual_scan_hit workName fileExtensions obj rest :
  vw_matches workName obj ->
  virtual_scan workName fileExtensions (obj :: rest) = getUrlByExt obj fileExtensions.
Proof.
  intros (cp & Hcp & Hsub). rewrite virtual_scan_step, Hcp.
  apply contains_spec in Hsub. by rewrite Hsub.
Qed.

Lemma virtual_scan_miss workName fileExtensions obj rest :
  ~ vw_matches workName obj ->
  virtual_scan workName fileExtensions (obj :: rest) =
  virtual_scan workName fileExtensions rest.
Proof.
  intros Hno. rewrite virtual_scan_step.
  destruct (vw_corpusPath obj) as [cp|] eqn:Hcp; [|done].
  destruct (PyStr.contains (PyStr.lower workName) (PyStr.lower cp)) eqn:Hc; [|done].
  exfalso. apply Hno. exists cp. split; [done|]. by apply contains_spec.
Qed.

(** The scan stops at the first match of the list. *)
Lemma virtual_scan_first workName fileExtensions before obj after :
  (forall o, o ∈ before -> ~ vw_matches workName o) ->
  vw_matches workName obj ->
  virtual_scan workName fileExtensions (before ++ obj :: after) =
  getUrlByExt obj fileExtensions.
Proof.
  intros Hbefore Hobj. induction before as [|o before IH]; simpl app.
  - by apply virtual_scan_hit.
  - rewrite virtual_scan_miss.
    + apply IH. intros o' Ho'. apply Hbefore. by right.
    + apply Hbefore. by left.
Qed.

Lemma virtual_scan_none workName fileExtensions objs :
  (forall o, o ∈ objs -> ~ vw_matches workName o) ->
  virtual_scan workName fileExtensions objs = [].
Proof.
  induction objs as [|o objs IH]; intros Hno; [done|].
  rewrite virtual_scan_miss.
  - apply IH. intros o' Ho'. apply Hno. by right.
  - apply Hno. by left.
Qed.

(** A list with a matching element divides at the first one. *)
Lemma first_match_split workName objs :
  (exists o, o ∈ objs /\ vw_matches workName o) ->
  exists before obj after,
    objs = before ++ obj :: after /\
    (forall o, o ∈ before -> ~ vw_matches workName o) /\
    vw_matches workName obj.
Proof.
  induction objs as [|o objs IH]; intros (x & Hin & Hx).
  - by apply elem_of_nil in Hin.
  - destruct (vw_corpusPath o) as [cp|] eqn:Hcp.
    + destruct (PyStr.contains (PyStr.lower workName) (PyStr.lower cp)) eqn:Hc.
      * exists [], o, objs. split; [done|]. split.
        -- intros o' Ho'. by apply elem_of_nil in Ho'.
        -- exists cp. split; [done|]. by apply contains_spec.
      * assert (Hno : ~ vw_matches workName o).
        { intros (cp' & Hcp' & Hsub). rewrite Hcp in Hcp'. injection Hcp' as <-.
          apply contains_spec in Hsub. congruence. }
        apply elem_of_cons in Hin as [-> |Hin]; [done|].
        destruct IH as (before & obj & after & -> & Hb & Ho); [by eauto|].
        exists (o :: before), obj, after. split; [done|]. split; [|done].
        intros o' Ho'. apply elem_of_cons in Ho' as [-> |Ho']; auto.
    + assert (Hno : ~ vw_matches workName o).
      { intros (cp' & Hcp' & _). congruence. }
      apply elem_of_cons in Hin as [-> |Hin]; [done|].
      destruct IH as (before & obj & after & -> & Hb & Ho); [by eauto|].
      exists (o :: before), obj, after. split; [done|]. split; [|done].
      intros o' Ho'. apply elem_of_cons in Ho' as [-> |Ho']; auto.
Qed.

(** C4. [getVirtualWorkList] returns the URLs, filtered by extension, of a
    virtual work whose corpus path contains the name as a substring, letter
    case aside; when no virtual work has such a corpus path it returns the
    empty list. *)
Theorem getVirtualWorkList_substring workName movementNumber fileExtensions :
  ((exists o, o ∈ VIRTUAL /\ vw_matches workName o) ->
   exists obj, obj ∈ VIRTUAL /\ vw_matches workName obj /\
               getVirtualWorkList workName movementNumber fileExtensions =
               getUrlByExt obj (listify fileExtensions)) /\
  ((forall o, o ∈ VIRTUAL -> ~ vw_matches workName o) ->
   getVirtualWorkList workName movementNumber fileExtensions = []).
Proof.
  unfold getVirtualWorkList. split.
  - intros Hex. destruct (first_match_split _ _ Hex) as (before & obj & after & E & Hb & Ho).
    exists obj. split; [|split; [done|]].
    + rewrite E. apply elem_of_app. right. by left.
    + rewrite E. by apply virtual_scan_first.
  - apply virtual_scan_none.
Qed.

(** C10. When several virtual works match the name, the result is the URL
    list of the first of them in registry order alone. *)
Theorem getVirtualWorkList_first_only workName movementNumber fileExtensions
    before obj after :
  VIRTUAL = before ++ obj :: after ->
  (forall o, o ∈ before -> ~ vw_matches workName o) ->
  vw_matches workName obj ->
  getVirtualWorkList workName movementNumber fileExtensions =
  getUrlByExt obj (listify fileExtensions).
Proof.
  intros E Hb Ho. unfold getVirtualWorkList. rewrite E.
  by apply virtual_scan_first.
Qed.

(** ** Registration of a local path *)

Lemma purge_local_step used keys cache :
  purge_local used keys cache =
  if negb (length cache =? used)%nat
  then (cache, Raise (RuntimeError "dictionary changed size during iteration"))
  else
    match keys with
    | [] => (cache, Ok tt)
    | key :: keys' =>
        if String.eqb (key_domain key) "local"
        then purge_local used keys' (cache_del key cache)
        else purge_local used keys' cache
    end.
Proof. by destruct keys. Qed.


(** Without a key of the local domain the loop deletes nothing. *)
Lemma purge_local_no_local keys : forall cache,
  (forall key, key ∈ keys -> key_domain key <> "local") ->
  purge_local (length cache) keys cache = (cache, Ok tt).
Proof.
  induction keys as [|key keys IH]; intros cache Hno; rewrite purge_local_step;
    rewrite Nat.eqb_refl; simpl negb; cbv iota; [done|].
  destruct (String.eqb_spec (key_domain key) "local") as [E|_].
  - exfalso. apply (Hno key); [by left|done].
  - apply IH. intros k Hk. apply Hno. by right.
Qed.

Lemma cache_del_length key (cache : list (CacheKey * list string)) :
  key ∈ cache.*1 -> length (cache_del key cache) < length cache.
Proof.
  unfold cache_del. induction cache as [|[k v] cache IH]; intros Hin; simpl in *.
  - by apply elem_of_nil in Hin.
  - rewrite filter_cons. simpl. destruct (decide (k <> key)) as [Hne|He].
    + simpl. apply elem_of_cons in Hin as [-> |Hin]; [done|].
      specialize (IH Hin). lia.
    + pose proof (length_filter (fun entry : CacheKey * list string => entry.1 <> key) cache).
      lia.
Qed.

(** With a key of the local domain the first deletion makes the next step
    of the iterator fail. *)
Lemma purge_local_with_local keys : forall cache,
  (forall key, key ∈ keys -> key ∈ cache.*1) ->
  (exists key, key ∈ keys /\ key_domain key = "local") ->
  (purge_local (length cache) keys cache).2 =
    Raise (RuntimeError "dictionary changed size during iteration").
Proof.
  induction keys as [|key keys IH]; intros cache Hsub (k & Hk & Hloc).
  - by apply elem_of_nil in Hk.
  - rewrite purge_local_step, Nat.eqb_refl. simpl negb. cbv iota.
    destruct (String.eqb_spec (key_domain key) "local") as [E|NE].
    + rewrite purge_local_step.
      assert (Hlt : length (cache_del key cache) < length cache).
      { apply cache_del_length, Hsub. by left. }
      destruct (Nat.eqb_spec (length (cache_del key cache)) (length cache)) as [Heq|_];
        [lia|done].
    + apply IH.
      * intros k' Hk'. apply Hsub. by right.
      * apply elem_of_cons in Hk as [-> |Hk]; [done|]. by exists k.
Qed.

(** An accepted path is appended, then the cache loop runs. *)
Lemma addPath_accepted p st :
  os_path_exists p = true -> p ∉ pathsLocalTemp st -> p ∉ localCorpusSettings ->
  addPath (Some p) st =
  ({| pathsCache :=
        (purge_local (length (pathsCache st)) (pathsCache st).*1 (pathsCache st)).1;
      pathsLocalTemp := pathsLocalTemp st ++ [p] |},
   (purge_local (length (pathsCache st)) (pathsCache st).*1 (pathsCache st)).2).
Proof.
  intros He Ht Hs. unfold addPath. rewrite He. simpl negb. cbv iota.
  rewrite !bool_decide_eq_false_2 by done.
  by destruct (purge_local _ _ _).
Qed.

Lemma addPath_refused filePath st :
  path_refused filePath st ->
  (addPath filePath st).1 = st /\
  exists msg, (addPath filePath st).2 = Raise (CorpusException msg).
Proof.
  unfold addPath. intros [-> |(p & -> & H)]; [by eauto|].
  destruct (os_path_exists p) eqn:He; simpl negb; cbv iota; [|by eauto].
  destruct (bool_decide (p ∈ pathsLocalTemp st)) eqn:Ht; [by eauto|].
  destruct (bool_decide (p ∈ localCorpusSettings)) eqn:Hs; [by eauto|].
  apply bool_decide_eq_false_1 in Ht, Hs. destruct H as [H|[H|H]]; done.
Qed.

Lemma path_refused_dec filePath st :
  path_refused filePath st \/
  exists p, filePath = Some p /\ os_path_exists p = true /\
            (p ∉ pathsLocalTemp st) /\ (p ∉ localCorpusSettings).
Proof.
  destruct filePath as [p|]; [|left; by left].
  destruct (os_path_exists p) eqn:He; [|left; right; exists p; auto].
  destruct (decide (p ∈ pathsLocalTemp st)) as [Ht|Ht]; [left; right; exists p; auto|].
  destruct (decide (p ∈ localCorpusSettings)) as [Hs|Hs]; [left; right; exists p; auto|].
  right. exists p. auto.
Qed.


(** An accepted path with no cached listing of the local domain: the call
    returns and the cache is as before. *)
Lemma addPath_without_local_keys p st :
  os_path_exists p = true -> p ∉ pathsLocalTemp st -> p ∉ localCorpusSettings ->
  (forall key, key ∈ (pathsCache st).*1 -> key_domain key <> "local") ->
  addPath (Some p) st =
  ({| pathsCache := pathsCache st; pathsLocalTemp := pathsLocalTemp st ++ [p] |}, Ok tt).
Proof.
  intros He Ht Hs Hno. rewrite (addPath_accepted _ _ He Ht Hs).
  by rewrite purge_local_no_local.
Qed.

(** An accepted path with a cached listing of the local domain: the call
    ends with the iterator's RuntimeError, the path already appended. *)
Lemma addPath_with_local_key p st :
  os_path_exists p = true -> p ∉ pathsLocalTemp st -> p ∉ localCorpusSettings ->
  (exists key, key ∈ (pathsCache st).*1 /\ key_domain key = "local") ->
  (addPath (Some p) st).2 =
    Raise (RuntimeError "dictionary changed size during iteration") /\
  pathsLocalTemp (addPath (Some p) st).1 = pathsLocalTemp st ++ [p].
Proof.
  intros He Ht Hs Hloc. rewrite (addPath_accepted _ _ He Ht Hs). simpl.
  split; [|done]. by apply purge_local_with_local.
Qed.

(** ** The reference index: the work dictionary of a composer *)

Lemma for_each_cons {X S} (body : S -> X -> result S) x l s :
  for_each body (x :: l) s =
  match body s x with
  | Ok s' => for_each body l s'
  | Raise e => Raise e
  end.
Proof. reflexivity. Qed.




Lemma append_file_lookup workStub fileDict works k :
  append_file workStub fileDict works !! k =
  if decide (k = workStub)
  then (fun w => {| wk_files := wk_files w ++ [fileDict];
                    wk_title := wk_title w;
                    wk_virtual := wk_virtual w |}) <$> works !! k
  else works !! k.
Proof.
  unfold append_file. destruct (decide (k = workStub)) as [-> |Hne].
  - by rewrite lookup_alter_eq.
  - by rewrite lookup_alter_ne.
Qed.

Lemma append_file_extended workStub fileDict works :
  entries_extended works (append_file workStub fileDict works).
Proof.
  intros k w H. rewrite append_file_lookup, H.
  destruct (decide (k = workStub)); simpl.
  - eexists. split; [done|]. simpl. repeat split. by apply prefix_app_r.
  - exists w. by repeat split.
Qed.

Lemma insert_fresh_extended workStub w0 (works : gmap string WorkDict) :
  works !! workStub = None -> entries_extended works (<[workStub := w0]> works).
Proof.
  intros Hnone k w H. exists w. split; [|by repeat split].
  rewrite lookup_insert_ne; [done|]. intros ->. congruence.
Qed.



(** The URLs of a virtual work, appended one by one. *)
Lemma append_urls_lookup vw corpusPath workStub urls : forall works k,
  fold_left (fun works url => append_file workStub (url_file vw corpusPath url) works)
            urls works !! k =
  if decide (k = workStub)
  then (fun w => {| wk_files := wk_files w ++ (url_file vw corpusPath <$> urls);
                    wk_title := wk_title w;
                    wk_virtual := wk_virtual w |}) <$> works !! k
  else works !! k.
Proof.
  induction urls as [|url urls IH]; intros works k; simpl.
  - destruct (decide (k = workStub)); [|done].
    destruct (works !! k) as [[f t v]|]; simpl; [|done]. by rewrite app_nil_r.
  - rewrite IH, append_file_lookup. destruct (decide (k = workStub)); [|done].
    destruct (works !! k) as [[f t v]|]; simpl; [|done]. by rewrite <- app_assoc.
Qed.

(** A virtual work puts a new entry under its stub, whatever was there. *)
Lemma add_virtual_work_lookup vw corpusPath workStub works k :
  add_virtual_work vw corpusPath workStub works !! k =
  if decide (k = workStub) then Some (virtual_entry vw corpusPath) else works !! k.
Proof.
  unfold add_virtual_work. rewrite append_urls_lookup.
  destruct (decide (k = workStub)) as [-> |Hne].
  - by rewrite lookup_insert_eq.
  - by rewrite lookup_insert_ne.
Qed.


(** ** The reference index: the two sorts *)

Lemma title_key_lt_le x y : title_key_lt x y = true -> title_key_le x y.
Proof.
  unfold title_key_lt, title_key_le. destruct (decide (x.1 = y.1)).
  - destruct (decide (x.2 = y.2)); [done|]. apply str_ltb_le.
  - apply str_ltb_le.
Qed.

Lemma title_key_nlt_le x y : title_key_lt x y = false -> title_key_le y x.
Proof.
  unfold title_key_lt, title_key_le. destruct (decide (x.1 = y.1)) as [E|NE].
  - destruct (decide (y.1 = x.1)); [|congruence].
    destruct (decide (x.2 = y.2)) as [E2|_].
    + intros _. rewrite E2. done.
    + apply str_nltb_le.
  - destruct (decide (y.1 = x.1)); [congruence|]. apply str_nltb_le.
Qed.

Lemma title_key_le_trans x y z :
  title_key_le x y -> title_key_le y z -> title_key_le x z.
Proof.
  unfold title_key_le.
  destruct (decide (x.1 = y.1)) as [Exy|Nxy], (decide (y.1 = z.1)) as [Eyz|Nyz];
    intros Hxy Hyz.
  - destruct (decide (x.1 = z.1)); [|congruence]. by etrans.
  - destruct (decide (x.1 = z.1)); [congruence|]. by rewrite Exy.
  - destruct (decide (x.1 = z.1)); [congruence|]. by rewrite <- Eyz.
  - destruct (decide (x.1 = z.1)) as [Exz|Nxz]; [|by etrans].
    exfalso. apply Nxy. apply (anti_symm String.le); [done|]. by rewrite Exz.
Qed.

Lemma title_key_le_antisym x y : title_key_le x y -> title_key_le y x -> x = y.
Proof.
  unfold title_key_le. destruct x as [x1 x2], y as [y1 y2]; simpl.
  destruct (decide (x1 = y1)) as [-> |NE].
  - destruct (decide (y1 = y1)); [|done].
    intros H1 H2. f_equal. by apply (anti_symm String.le).
  - destruct (decide (y1 = x1)); [congruence|].
    intros H1 H2. exfalso. apply NE. by apply (anti_symm String.le).
Qed.

Lemma py_sort_title_key_sorted l : StronglySorted title_key_le (py_sort title_key_lt l).
Proof.
  apply py_sort_sorted.
  - apply title_key_lt_le.
  - apply title_key_nlt_le.
  - apply title_key_le_trans.
Qed.

(** Sorting the title keys does not depend on the order they come in. *)
Lemma py_sort_title_key_perm l1 l2 :
  l1 ≡ₚ l2 -> py_sort title_key_lt l1 = py_sort title_key_lt l2.
Proof.
  intros Hp.
  assert (Hanti : AntiSymm (=) title_key_le).
  { intros x y. apply title_key_le_antisym. }
  apply (StronglySorted_unique title_key_le).
  - apply py_sort_title_key_sorted.
  - apply py_sort_title_key_sorted.
  - by rewrite !py_sort_perm.
Qed.

(** The sorted work keys are those of the items in any order. *)
Lemma sorted_work_keys_canonical works :
  dict_items works ≡ₚ map_to_list works ->
  sorted_work_keys works =
  (py_sort title_key_lt
     ((fun item : string * WorkDict => (wk_title item.2, item.1)) <$> map_to_list works)).*2.
Proof.
  intros Hp. unfold sorted_work_keys. f_equal.
  apply py_sort_title_key_perm. by rewrite Hp.
Qed.

Lemma sorted_work_keys_perm works :
  dict_items works ≡ₚ map_to_list works ->
  sorted_work_keys works ≡ₚ (map_to_list works).*1.
Proof.
  intros Hp. unfold sorted_work_keys. rewrite py_sort_perm, Hp.
  rewrite <- list_fmap_compose. done.
Qed.

Lemma dir_ref_lt_le x y : dir_ref_lt x y = true -> String.le x.1 y.1.
Proof.
  unfold dir_ref_lt. destruct (decide (x.1 = y.1)) as [-> |_].
  - done.
  - apply str_ltb_le.
Qed.

Lemma dir_ref_nlt_le x y : dir_ref_lt x y = false -> String.le y.1 x.1.
Proof.
  unfold dir_ref_lt. destruct (decide (x.1 = y.1)) as [-> |_].
  - done.
  - apply str_nltb_le.
Qed.

Lemma sort_results_perm results :
  sort_results results ≡ₚ set_sorted_keys <$> results.
Proof.
  unfold sort_results. rewrite py_sort_perm, <- list_fmap_compose. done.
Qed.

(** The sorted result is in ascending order of the directory names. *)
Lemma sort_results_sorted results :
  StronglySorted String.le (ref_composerDir <$> sort_results results).
Proof.
  unfold sort_results.
  set (sortGroup := (fun ref => (ref_composerDir ref, set_sorted_keys ref)) <$> results).
  assert (Hkey : Forall (fun x : string * Ref => ref_composerDir x.2 = x.1)
                        (py_sort dir_ref_lt sortGroup)).
  { apply Forall_forall. intros x Hx. apply py_sort_elem in Hx.
    unfold sortGroup in Hx. apply list_elem_of_fmap in Hx as (ref & -> & _). done. }
  assert (Hs : StronglySorted (fun x y : string * Ref => String.le x.1 y.1)
                              (py_sort dir_ref_lt sortGroup)).
  { apply py_sort_sorted.
    - apply dir_ref_lt_le.
    - apply dir_ref_nlt_le.
    - intros x y z ??. by etrans. }
  rewrite <- list_fmap_compose.
  rewrite (Forall_fmap_ext_1 (ref_composerDir ∘ snd) fst).
  - by apply (StronglySorted_fmap fst (fun x y => String.le x.1 y.1) String.le).
  - exact Hkey.
Qed.

(** Without virtual works and sorting, the entries follow the table. *)
Lemma add_composers_dirs table : forall results results',
  for_each add_composer table results = Ok results' ->
  ref_composerDir <$> results' = (ref_composerDir <$> results) ++ table.*1.
Proof.
  induction table as [|[dir name] table IH]; intros results results' H.
  - injection H as <-. by rewrite app_nil_r.
  - rewrite for_each_cons in H. unfold add_composer at 1 in H.
    destruct (for_each (add_core_path dir) (getComposer dir ExtNone) ∅) as [works|e];
      [|discriminate H].
    simpl in H. apply IH in H. rewrite H, fmap_app. simpl. by rewrite <- app_assoc.
Qed.

Lemma add_virtual_dirs results vw results' :
  add_virtual results vw = Ok results' ->
  exists extra, ref_composerDir <$> results' = (ref_composerDir <$> results) ++ extra.
Proof.
  unfold add_virtual. destruct (vw_corpusPath vw) as [cp|]; [|discriminate].
  destruct (list_find _ results) as [[i ref]|]; intros H; injection H as <-.
  - exists []. rewrite app_nil_r.
    rewrite (list_fmap_alter ref_composerDir _ id).
    + generalize (ref_composerDir <$> results). clear. intros l. revert i.
      induction l as [|d l IH]; intros [|i]; simpl; try done.
      f_equal. apply IH.
    + by apply Forall_forall.
  - eexists. by rewrite fmap_app.
Qed.

Lemma add_virtuals_dirs vws : forall results results',
  for_each add_virtual vws results = Ok results' ->
  exists extra, ref_composerDir <$> results' = (ref_composerDir <$> results) ++ extra.
Proof.
  induction vws as [|vw vws IH]; intros results results' H.
  - injection H as <-. exists []. by rewrite app_nil_r.
  - rewrite for_each_cons in H.
    destruct (add_virtual results vw) as [r1|e] eqn:E; [|discriminate H].
    destruct (add_virtual_dirs _ _ _ E) as [x1 H1].
    destruct (IH _ _ H) as [x2 H2].
    exists (x1 ++ x2). by rewrite H2, H1, <- app_assoc.
Qed.

Lemma getWorkReferences_unfold sort :
  getWorkReferences sort =
  match for_each add_composer CoreCorpus_composers [] with
  | Ok r1 =>
      match for_each add_virtual VIRTUAL r1 with
      | Ok r2 => if sort then Ok (sort_results r2) else Ok r2
      | Raise e => Raise e
      end
  | Raise e => Raise e
  end.
Proof.
  unfold getWorkReferences.
  destruct (for_each add_composer CoreCorpus_composers []) as [r1|e]; [|done].
  simpl. by destruct (for_each add_virtual VIRTUAL r1).
Qed.

(** C5, as the code has it. With [sort=True] the entries come in ascending
    order of the composer directory names; the order of the composer table
    is the order of the entries when [sort=False], the composers found only
    in virtual works following the table. *)
Theorem getWorkReferences_order sort refs :
  getWorkReferences sort = Ok refs ->
  (sort = true -> StronglySorted String.le (ref_composerDir <$> refs)) /\
  (sort = false ->
   exists extra, ref_composerDir <$> refs = CoreCorpus_composers.*1 ++ extra).
Proof.
  rewrite getWorkReferences_unfold.
  destruct (for_each add_composer CoreCorpus_composers []) as [r1|e] eqn:E1;
    [|discriminate].
  destruct (for_each add_virtual VIRTUAL r1) as [r2|e] eqn:E2; [|discriminate].
  intros H. split; intros ->; injection H as <-.
  - apply sort_results_sorted.
  - apply add_composers_dirs in E1. apply add_virtuals_dirs in E2 as [extra E2].
    exists extra. by rewrite E2, E1.
Qed.

(** ** Further properties of the path listing and the composer match *)


Lemma stubs_match_lower name1 name2 stubs :
  PyStr.lower name1 = PyStr.lower name2 ->
  stubs_match name1 stubs = stubs_match name2 stubs.
Proof.
  intros E. induction stubs as [|stub rest IH]; simpl; [done|].
  by rewrite E, IH.
Qed.

Lemma filter_loop_filter {X} (P : X -> bool) l : forall acc,
  fold_left (fun results y => if P y then results ++ [y] else results) l acc =
  acc ++ List.filter P l.
Proof.
  induction l as [|y l IH]; intros acc; simpl.
  - by rewrite app_nil_r.
  - rewrite IH. destruct (P y); [|done]. by rewrite <- app_assoc.
Qed.

(** X3. The composer name is compared without regard to letter case: two names
    that differ only in case select the same paths. *)
Theorem getComposer_name_case name1 name2 fileExtensions :
  PyStr.lower name1 = PyStr.lower name2 ->
  getComposer name1 fileExtensions = getComposer name2 fileExtensions.
Proof.
  intros E. unfold getComposer.
  rewrite (filter_loop_filter
             (fun path => stubs_match name1 (PyStr.split_char os_sep path))).
  rewrite (filter_loop_filter
             (fun path => stubs_match name2 (PyStr.split_char os_sep path))).
  do 2 f_equal. apply List.filter_ext. intros path.
  by apply stubs_match_lower.
Qed.

(** X4. [getComposer] rearranges the matching paths of the listing and nothing
    else: a path listed twice and matching is returned twice, and the result
    is never longer than the listing. *)
Theorem getComposer_rearranges composerName fileExtensions :
  getComposer composerName fileExtensions ≡ₚ
    List.filter (fun path => stubs_match composerName (PyStr.split_char os_sep path))
                (getPaths fileExtensions true all_domains) /\
  length (getComposer composerName fileExtensions) <=
    length (getPaths fileExtensions true all_domains).
Proof.
  unfold getComposer.
  rewrite (filter_loop_filter
             (fun path => stubs_match composerName (PyStr.split_char os_sep path))).
  simpl app. split.
  - apply py_sort_perm.
  - rewrite py_sort_perm. apply List.filter_length_le.
Qed.

(** ** Further properties of the resolver *)

Lemma getWork_rec_found n workName movementNumber fileExtensions p l :
  getWorkList workName movementNumber (listify fileExtensions) = p :: l ->
  getWork_rec (S n) workName movementNumber fileExtensions =
  ([CoreLookup workName (listify fileExtensions)], arity (p :: l)).
Proof. intros H. cbn [getWork_rec]. by rewrite H. Qed.

(** X1. Matches in the core corpus settle the call: one match is returned bare,
    several are returned as they are listed, and the virtual registry is not
    consulted, whatever it holds. *)
Theorem getWork_core_first workName movementNumber fileExtensions :
  (forall p,
      getWorkList workName movementNumber (listify fileExtensions) = [p] ->
      getWork workName movementNumber fileExtensions =
      ([CoreLookup workName (listify fileExtensions)], Ok (OnePath p))) /\
  (forall p q l,
      getWorkList workName movementNumber (listify fileExtensions) = p :: q :: l ->
      getWork workName movementNumber fileExtensions =
      ([CoreLookup workName (listify fileExtensions)], Ok (PathList (p :: q :: l)))).
Proof.
  rewrite getWork_limit. split.
  - intros p H. by rewrite (getWork_rec_found _ _ _ _ p []).
  - intros p q l H. by rewrite (getWork_rec_found _ _ _ _ p (q :: l)).
Qed.

Lemma getWork_rec_no_retry_trace n workName movementNumber fileExtensions :
  PyStr.endswith (joined_name workName) ".xml" = false ->
  (getWork_rec (S n) workName movementNumber fileExtensions).1 =
    [CoreLookup workName (listify fileExtensions)] \/
  (getWork_rec (S n) workName movementNumber fileExtensions).1 =
    [CoreLookup workName (listify fileExtensions);
     VirtualLookup (joined_name workName) (listify fileExtensions)].
Proof.
  intros Hx. rewrite getWork_rec_no_retry by done.
  destruct (getWorkList workName movementNumber (listify fileExtensions));
    [by right|by left].
Qed.

(** X2. The lookups of one call: the core corpus for the name; then either
    nothing more, or the virtual registry for the joined name, or (for a name
    in [.xml] without core match) the core corpus for the [.mxl] name and
    possibly the virtual registry for that name. There is never a second
    retry and never a second virtual lookup. *)
Theorem getWork_lookups workName movementNumber fileExtensions :
  let fe := listify fileExtensions in
  let trace := (getWork workName movementNumber fileExtensions).1 in
  trace = [CoreLookup workName fe] \/
  trace = [CoreLookup workName fe; VirtualLookup (joined_name workName) fe] \/
  exists stem,
    joined_name workName = stem +:+ ".xml" /\
    (trace = [CoreLookup workName fe; CoreLookup (NameStr (stem +:+ ".mxl")) fe] \/
     trace = [CoreLookup workName fe; CoreLookup (NameStr (stem +:+ ".mxl")) fe;
              VirtualLookup (stem +:+ ".mxl") fe]).
Proof.
  cbv zeta. rewrite getWork_limit.
  destruct (PyStr.endswith (joined_name workName) ".xml") eqn:Hx.
  - destruct (getWorkList workName movementNumber (listify fileExtensions)) as [|p l] eqn:Hl.
    + apply endswith_spec in Hx as [stem Hx].
      rewrite (getWork_rec_retry _ _ _ _ stem) by done. cbn [fst].
      right; right. exists stem. split; [done|].
      destruct (getWork_rec_no_retry_trace 998 (NameStr (stem +:+ ".mxl")) movementNumber
                  (listify fileExtensions) (mxl_not_xml stem)) as [H|H];
        rewrite H, listify_idemp; [by left|by right].
    + left. by rewrite (getWork_rec_found _ _ _ _ p l).
  - destruct (getWork_rec_no_retry_trace (S 998) workName movementNumber fileExtensions Hx)
      as [H|H]; rewrite H; [by left|right; by left].
Qed.

(** ** Further properties of the virtual work list *)

Lemma VIRTUAL_has_path obj : obj ∈ VIRTUAL -> exists corpusPath, vw_corpusPath obj = Some corpusPath.
Proof.
  unfold VIRTUAL. intros H. apply list_elem_of_filter in H as [H _].
  destruct (vw_corpusPath obj) as [cp|]; [by exists cp|done].
Qed.

(** X6. The empty name occurs in every corpus path: [getVirtualWorkList] answers
    it with the URLs of the first virtual work of the registry. *)
Theorem getVirtualWorkList_empty_name movementNumber fileExtensions obj rest :
  VIRTUAL = obj :: rest ->
  getVirtualWorkList "" movementNumber fileExtensions =
  getUrlByExt obj (listify fileExtensions).
Proof.
  intros E. unfold getVirtualWorkList. rewrite E. apply virtual_scan_hit.
  destruct (VIRTUAL_has_path obj) as [cp Hcp]; [rewrite E; by left|].
  exists cp. split; [done|]. by exists "", (PyStr.lower cp).
Qed.

Lemma virtual_scan_lower name1 name2 fileExtensions objs :
  PyStr.lower name1 = PyStr.lower name2 ->
  virtual_scan name1 fileExtensions objs = virtual_scan name2 fileExtensions objs.
Proof.
  intros E. induction objs as [|obj rest IH]; [done|].
  rewrite !virtual_scan_step, E, IH. done.
Qed.

(** X7. The name is compared without regard to letter case. *)
Theorem getVirtualWorkList_name_case name1 name2 movementNumber fileExtensions :
  PyStr.lower name1 = PyStr.lower name2 ->
  getVirtualWorkList name1 movementNumber fileExtensions =
  getVirtualWorkList name2 movementNumber fileExtensions.
Proof. intros E. unfold getVirtualWorkList. by apply virtual_scan_lower. Qed.

(** ** Further properties of the reference index *)

Lemma for_each_total {X S} (body : S -> X -> result S) l :
  (forall x s, x ∈ l -> exists s', body s x = Ok s') ->
  forall s, exists s', for_each body l s = Ok s'.
Proof.
  induction l as [|x l IH]; intros Hbody s.
  - by exists s.
  - rewrite for_each_cons. destruct (Hbody x s) as [s1 ->]; [by left|].
    apply IH. intros y s2 Hy. apply Hbody. by right.
Qed.

Lemma for_each_error {X S} (body : S -> X -> result S) (P : PyError -> Prop) l :
  (forall x s e, x ∈ l -> body s x = Raise e -> P e) ->
  forall s e, for_each body l s = Raise e -> P e.
Proof.
  induction l as [|x l IH]; intros Hbody s e H; [discriminate H|].
  rewrite for_each_cons in H. destruct (body s x) as [s1|e1] eqn:E.
  - eapply IH; [|exact H]. intros y s2 e2 Hy. apply Hbody. by right.
  - injection H as <-. eapply Hbody; [by left|exact E].
Qed.

(** A loop in which one element makes the body raise, in whatever state,
    raises. *)
Lemma for_each_raises_at {X S} (body : S -> X -> result S) l x :
  x ∈ l -> (forall s, exists e, body s x = Raise e) ->
  forall s, exists e, for_each body l s = Raise e.
Proof.
  induction l as [|y l IH]; intros Hin Hx s.
  - by apply elem_of_nil in Hin.
  - rewrite for_each_cons. destruct (body s y) as [s1|e1] eqn:E.
    + apply elem_of_cons in Hin as [-> |Hin].
      * destruct (Hx s) as [e He]. congruence.
      * by apply IH.
    + by exists e1.
Qed.

Lemma add_core_path_error composerDirectory works path e :
  add_core_path composerDirectory works path = Raise e -> exists msg, e = ValueError msg.
Proof.
  unfold add_core_path.
  destruct (PyStr.split composerDirectory path) as [[|junk [|fileStub [|x l]]]|];
    try (intros H; injection H as <-; by eexists).
  destruct (findFormatExtFile _) as [m21Format [ext|]]; discriminate.
Qed.

Lemma add_composer_error results entry e :
  add_composer results entry = Raise e -> exists msg, e = ValueError msg.
Proof.
  destruct entry as [dir name]. unfold add_composer.
  destruct (for_each (add_core_path dir) (getComposer dir ExtNone) ∅) as [works|e1] eqn:E;
    [discriminate|].
  intros H. injection H as <-.
  apply (for_each_error (add_core_path dir) (fun e => exists msg, e = ValueError msg)
           (getComposer dir ExtNone)
           (fun x s e2 _ => add_core_path_error dir s x e2) ∅ e1 E).
Qed.

Lemma add_virtual_total results vw :
  vw ∈ VIRTUAL -> exists results', add_virtual results vw = Ok results'.
Proof.
  intros Hin. destruct (VIRTUAL_has_path _ Hin) as [cp Hcp].
  unfold add_virtual. rewrite Hcp.
  destruct (list_find _ results) as [[i ref]|]; by eexists.
Qed.

(** X8. [getWorkReferences] fails only with ValueError, and only in the loop
    over the composer table (when a listed path does not divide in two at the
    directory name): once that loop has ended normally, folding in the
    virtual works and sorting cannot fail. *)
Theorem getWorkReferences_failure sort :
  (forall e, getWorkReferences sort = Raise e -> exists msg, e = ValueError msg) /\
  (forall results,
      for_each add_composer CoreCorpus_composers [] = Ok results ->
      exists refs, getWorkReferences sort = Ok refs).
Proof.
  rewrite getWorkReferences_unfold. split.
  - intros e H.
    destruct (for_each add_composer CoreCorpus_composers []) as [r1|e1] eqn:E1.
    + destruct (for_each_total add_virtual VIRTUAL
                  (fun x s Hx => add_virtual_total s x Hx) r1) as [r2 E2].
      rewrite E2 in H. by destruct sort.
    + injection H as <-.
      apply (for_each_error add_composer (fun e => exists msg, e = ValueError msg)
               CoreCorpus_composers (fun x s e2 _ => add_composer_error s x e2) [] e1 E1).
  - intros results ->.
    destruct (for_each_total add_virtual VIRTUAL
                (fun x s Hx => add_virtual_total s x Hx) results) as [r2 ->].
    destruct sort; by eexists.
Qed.

(** A string in which the separator does not occur is one piece. *)
Lemma split_go_absent sep s : forall cur,
  PyStr.contains sep s = false -> PyStr.split_go sep 0 cur s = [cur +:+ s].
Proof.
  induction s as [|a s IH]; intros cur H.
  - simpl. by rewrite str_app_nil_r.
  - rewrite contains_cons in H. apply orb_false_iff in H as [Hp Hs].
    change (PyStr.split_go sep 0 cur (String a s))
      with (if String.prefix sep (String a s)
            then cur :: PyStr.split_go sep (String.length sep - 1) "" s
            else PyStr.split_go sep 0 (cur +:+ String a "") s).
    rewrite Hp, (IH _ Hs). by rewrite str_app_snoc.
Qed.

Lemma split_absent sep s :
  PyStr.contains sep s = false -> PyStr.split sep s = Some [s].
Proof.
  intros H. unfold PyStr.split.
  destruct (String.eqb_spec sep "") as [-> |_].
  - destruct s; discriminate H.
  - by rewrite split_go_absent.
Qed.

Lemma add_core_path_absent composerDirectory works path :
  PyStr.contains composerDirectory path = false ->
  add_core_path composerDirectory works path =
  Raise (ValueError "wrong number of values to unpack").
Proof. intros H. unfold add_core_path. by rewrite split_absent. Qed.

(** X9. [getComposer] matches the directory name without regard to letter case,
    while the path is then divided at the directory name as it is written.
    A path listed for a composer in which the directory name does not occur
    as written (for example under [Bach] for [bach]) makes
    [getWorkReferences] raise ValueError. *)
Theorem getWorkReferences_case_mismatch sort composerDirectory composer path :
  (composerDirectory, composer) ∈ CoreCorpus_composers ->
  path ∈ getComposer composerDirectory ExtNone ->
  ~ is_substring composerDirectory path ->
  exists msg, getWorkReferences sort = Raise (ValueError msg).
Proof.
  intros Hc Hp Hno.
  assert (Hcontains : PyStr.contains composerDirectory path = false).
  { destruct (PyStr.contains composerDirectory path) eqn:E; [|done].
    by apply contains_spec in E. }
  assert (Hrow : forall results, exists e,
             add_composer results (composerDirectory, composer) = Raise e).
  { intros results. unfold add_composer.
    destruct (for_each_raises_at (add_core_path composerDirectory)
                (getComposer composerDirectory ExtNone) path Hp
                (fun s => ex_intro _ _ (add_core_path_absent _ s _ Hcontains)) ∅)
      as [e ->].
    by exists e. }
  destruct (for_each_raises_at add_composer CoreCorpus_composers _ Hc Hrow [])
    as [e He].
  destruct (for_each_error add_composer (fun e => exists msg, e = ValueError msg)
              CoreCorpus_composers (fun x s e2 _ => add_composer_error s x e2) [] e He)
    as [msg ->].
  rewrite getWorkReferences_unfold, He. by exists msg.
Qed.

(** *** The kinds of records in an entry *)

Lemma entry_ok_core w :
  wk_virtual w = false -> wk_files w <> [] -> Forall core_file (wk_files w) -> entry_ok w.
Proof. unfold entry_ok. by intros -> ??. Qed.

Lemma entry_ok_core_inv w :
  wk_virtual w = false -> entry_ok w -> Forall core_file (wk_files w).
Proof. unfold entry_ok. intros ->. by intros [_ ?]. Qed.

(** The loop over the paths of a composer keeps every entry a non-virtual
    entry of corpus files. *)
Lemma add_core_path_entries composerDirectory works path works' :
  map_Forall (fun _ w => wk_virtual w = false /\ entry_ok w) works ->
  add_core_path composerDirectory works path = Ok works' ->
  map_Forall (fun _ w => wk_virtual w = false /\ entry_ok w) works'.
Proof.
  intros Hinv. unfold add_core_path.
  destruct (PyStr.split composerDirectory path) as [[|junk [|fileStub [|x l]]]|];
    try discriminate.
  destruct (findFormatExtFile _) as [m21Format [ext|]]; intros H; injection H as <-;
    [|done].
  intros k w. rewrite append_file_lookup.
  destruct (decide (k = _)) as [-> |Hne].
  - destruct (works !! _) as [w0|] eqn:E.
    + rewrite E. simpl. intros Hw. injection Hw as <-. simpl.
      destruct (Hinv _ _ E) as [Hv Hok]. split; [done|].
      apply entry_ok_core; simpl; [done|by destruct (wk_files w0)|].
      apply Forall_app. split; [by apply entry_ok_core_inv|].
      constructor; [|done]. unfold core_file. simpl. eauto.
    + rewrite lookup_insert_eq. simpl. intros Hw. injection Hw as <-. simpl.
      split; [done|]. apply entry_ok_core; simpl; [done|done|].
      constructor; [|done]. unfold core_file. simpl. eauto.
  - destruct (works !! _) as [w0|] eqn:E.
    + intros Hw. by apply (Hinv k).
    + rewrite lookup_insert_ne by done. intros Hw. by apply (Hinv k).
Qed.

Lemma add_composer_refs_ok results entry results' :
  refs_ok results -> add_composer results entry = Ok results' -> refs_ok results'.
Proof.
  destruct entry as [dir name]. unfold add_composer. intros Hinv.
  destruct (for_each (add_core_path dir) (getComposer dir ExtNone) ∅) as [works|e] eqn:E;
    [|discriminate].
  intros H. injection H as <-. apply Forall_app. split; [done|].
  constructor; [|done]. split; [done|]. simpl.
  assert (Hw : map_Forall (fun _ w => wk_virtual w = false /\ entry_ok w) works).
  { revert E. generalize (getComposer dir ExtNone). intros paths.
    assert (H0 : map_Forall (fun _ w => wk_virtual w = false /\ entry_ok w)
                            (∅ : gmap string WorkDict)) by apply map_Forall_empty.
    revert H0. generalize (∅ : gmap string WorkDict).
    induction paths as [|p paths IH]; intros w0 H0 E.
    - by injection E as <-.
    - rewrite for_each_cons in E.
      destruct (add_core_path dir w0 p) as [w1|e] eqn:E1; [|discriminate E].
      eapply IH; [|exact E]. by eapply add_core_path_entries. }
  intros k w Hk. by destruct (Hw k w Hk).
Qed.

Lemma virtual_entry_ok vw corpusPath : entry_ok (virtual_entry vw corpusPath).
Proof.
  unfold entry_ok, virtual_entry. simpl. apply Forall_fmap, Forall_forall.
  intros url _. unfold url_record, url_file. simpl.
  destruct (findFormatExtURL url). simpl. eauto.
Qed.

Lemma add_virtual_work_ok vw corpusPath workStub works :
  map_Forall (fun _ w => entry_ok w) works ->
  map_Forall (fun _ w => entry_ok w) (add_virtual_work vw corpusPath workStub works).
Proof.
  intros Hinv k w. rewrite add_virtual_work_lookup.
  destruct (decide (k = workStub)).
  - intros Hw. injection Hw as <-. apply virtual_entry_ok.
  - apply Hinv.
Qed.

Lemma add_virtual_refs_ok results vw results' :
  refs_ok results -> add_virtual results vw = Ok results' -> refs_ok results'.
Proof.
  unfold add_virtual, refs_ok. intros Hinv.
  destruct (vw_corpusPath vw) as [cp|]; [|discriminate].
  destruct (list_find _ results) as [[i ref]|]; intros H; injection H as <-.
  - apply Forall_alter; [done|]. intros ref0 _ [Hk Hw]. simpl.
    split; [done|]. by apply add_virtual_work_ok.
  - apply Forall_app. split; [done|]. constructor; [|done]. simpl.
    split; [done|]. apply add_virtual_work_ok, map_Forall_empty.
Qed.

Lemma for_each_inv {X S} (body : S -> X -> result S) (I : S -> Prop) :
  (forall s x s', I s -> body s x = Ok s' -> I s') ->
  forall l s s', I s -> for_each body l s = Ok s' -> I s'.
Proof.
  intros Hstep l. induction l as [|x l IH]; intros s s' Hs H.
  - by injection H as <-.
  - rewrite for_each_cons in H. destruct (body s x) as [s1|e] eqn:E; [|discriminate H].
    eapply IH; [|exact H]. by eapply Hstep.
Qed.

(** The entries before sorting. *)
Lemma unsorted_refs_ok refs :
  getWorkReferences false = Ok refs -> refs_ok refs.
Proof.
  rewrite getWorkReferences_unfold.
  destruct (for_each add_composer CoreCorpus_composers []) as [r1|e] eqn:E1;
    [|discriminate].
  destruct (for_each add_virtual VIRTUAL r1) as [r2|e] eqn:E2; [|discriminate].
  intros H. injection H as <-.
  eapply (for_each_inv add_virtual refs_ok); [| |exact E2].
  - intros s x s' Hs Hx. by eapply add_virtual_refs_ok.
  - eapply (for_each_inv add_composer refs_ok); [| |exact E1].
    + intros s x s' Hs Hx. by eapply add_composer_refs_ok.
    + constructor.
Qed.

(** X10. Sorting only reorders the entries and gives each its list of sorted
    work keys: the sorted result is a rearrangement of the unsorted one with
    [sortedWorkKeys] set, an unsorted entry has no [sortedWorkKeys], and the
    call fails with sorting exactly as it fails without. *)
Theorem getWorkReferences_sort_rearranges :
  match getWorkReferences false with
  | Ok refs0 =>
      Forall (fun ref => ref_sortedWorkKeys ref = None) refs0 /\
      exists refs,
        getWorkReferences true = Ok refs /\
        refs ≡ₚ set_sorted_keys <$> refs0
  | Raise e => getWorkReferences true = Raise e
  end.
Proof.
  destruct (getWorkReferences false) as [refs0|e] eqn:E0.
  - split.
    + eapply Forall_impl; [exact (unsorted_refs_ok _ E0)|]. by intros ref [? _].
    + revert E0. rewrite !getWorkReferences_unfold.
      destruct (for_each add_composer CoreCorpus_composers []) as [r1|e]; [|discriminate].
      destruct (for_each add_virtual VIRTUAL r1) as [r2|e]; [|discriminate].
      intros H. injection H as <-. eexists. split; [done|]. apply sort_results_perm.
  - revert E0. rewrite !getWorkReferences_unfold.
    destruct (for_each add_composer CoreCorpus_composers []) as [r1|e1]; [|done].
    destruct (for_each add_virtual VIRTUAL r1) as [r2|e2]; [discriminate|done].
Qed.

(** The entries of a result, sorted or not, all satisfy a property of the
    work dictionaries that the unsorted entries satisfy. *)
Lemma result_works sort refs (P : gmap string WorkDict -> Prop) :
  (forall refs0, getWorkReferences false = Ok refs0 ->
                 Forall (fun ref => P (ref_works ref)) refs0) ->
  getWorkReferences sort = Ok refs ->
  Forall (fun ref => P (ref_works ref)) refs.
Proof.
  intros H0. destruct sort; [|by apply H0].
  revert H0. rewrite !getWorkReferences_unfold.
  destruct (for_each add_composer CoreCorpus_composers []) as [r1|e]; [|discriminate].
  destruct (for_each add_virtual VIRTUAL r1) as [r2|e]; [|discriminate].
  intros H0 H. injection H as <-. specialize (H0 r2 eq_refl).
  rewrite sort_results_perm. apply Forall_fmap.
  eapply Forall_impl; [exact H0|]. by intros ref Href.
Qed.

(** X11. In every entry of every result, a work marked virtual holds records
    with a URL and no file name, and a work not marked virtual holds at least
    one record and only records with a file name, a recognised extension and
    no URL. *)
Theorem getWorkReferences_entries_of_one_kind sort refs :
  getWorkReferences sort = Ok refs ->
  forall ref workStub w,
    ref ∈ refs -> ref_works ref !! workStub = Some w -> entry_ok w.
Proof.
  intros H ref stub w Hin Hw.
  assert (Hall : Forall (fun ref => map_Forall (fun _ w => entry_ok w) (ref_works ref)) refs).
  { apply (result_works sort); [|exact H].
    intros refs0 H0. eapply Forall_impl; [exact (unsorted_refs_ok _ H0)|].
    by intros r [_ ?]. }
  rewrite Forall_forall in Hall. exact (Hall ref Hin stub w Hw).
Qed.

(** X12. With [sort=True] every entry lists its work stubs in [sortedWorkKeys]:
    each stub once, in ascending order of the pairs (title, stub). *)
Theorem getWorkReferences_sorted_keys refs :
  (forall works, dict_items works ≡ₚ map_to_list works) ->
  getWorkReferences true = Ok refs ->
  forall ref, ref ∈ refs ->
    exists pairs : list (string * string),
      ref_sortedWorkKeys ref = Some pairs.*2 /\
      StronglySorted title_key_le pairs /\
      NoDup pairs.*2 /\
      (forall t k, (t, k) ∈ pairs <->
                   exists w, ref_works ref !! k = Some w /\ wk_title w = t).
Proof.
  intros Hitems. rewrite getWorkReferences_unfold.
  destruct (for_each add_composer CoreCorpus_composers []) as [r1|e]; [|discriminate].
  destruct (for_each add_virtual VIRTUAL r1) as [r2|e]; [|discriminate].
  intros H ref Hin. injection H as <-.
  rewrite sort_results_perm in Hin. apply list_elem_of_fmap in Hin as (ref0 & -> & _).
  set (works := ref_works ref0).
  set (pairs := py_sort title_key_lt
                  ((fun item : string * WorkDict => (wk_title item.2, item.1)) <$>
                     dict_items works)).
  assert (Hperm : pairs ≡ₚ
            (fun item : string * WorkDict => (wk_title item.2, item.1)) <$> map_to_list works).
  { unfold pairs. by rewrite py_sort_perm, Hitems. }
  exists pairs. split; [done|]. split; [apply py_sort_title_key_sorted|]. split.
  - rewrite Hperm, <- list_fmap_compose.
    apply (NoDup_fst_map_to_list works).
  - intros t k. rewrite Hperm, list_elem_of_fmap. split.
    + intros ([k' w] & E & Hkw). simpl in E. injection E as -> ->.
      apply elem_of_map_to_list in Hkw. by exists w.
    + intros (w & Hw & <-). exists (k, w). split; [done|].
      by apply elem_of_map_to_list.
Qed.

(** ** Further properties of the registration of a local path *)

(** The cache loop drops only listings of the local domain, and keeps the
    order of what it leaves. *)
Lemma purge_local_frame used keys : forall cache,
  filter (fun entry : CacheKey * list string => key_domain entry.1 <> "local")
         (purge_local used keys cache).1 =
  filter (fun entry : CacheKey * list string => key_domain entry.1 <> "local") cache /\
  (purge_local used keys cache).1 `sublist_of` cache.
Proof.
  induction keys as [|key keys IH]; intros cache; rewrite purge_local_step.
  - by destruct (negb (length cache =? used)%nat).
  - destruct (negb (length cache =? used)%nat); [done|].
    destruct (String.eqb_spec (key_domain key) "local") as [E|NE]; [|apply IH].
    destruct (IH (cache_del key cache)) as [Hf Hs]. split.
    + rewrite Hf. unfold cache_del. apply list_filter_filter_l.
      intros entry Hd Heq. apply Hd. by rewrite Heq.
    + etrans; [exact Hs|]. apply sublist_filter.
Qed.

(** X13. Whatever the outcome of [addPath], the cached listings of the other
    domains are all kept, in their order; the cache gains nothing; and the
    temporary path list only grows at its end. *)
Theorem addPath_frame filePath st :
  filter (fun entry : CacheKey * list string => key_domain entry.1 <> "local")
         (pathsCache (addPath filePath st).1) =
  filter (fun entry : CacheKey * list string => key_domain entry.1 <> "local")
         (pathsCache st) /\
  pathsCache (addPath filePath st).1 `sublist_of` pathsCache st /\
  pathsLocalTemp st `prefix_of` pathsLocalTemp (addPath filePath st).1.
Proof.
  destruct (path_refused_dec filePath st) as [Href|(p & -> & He & Ht & Hs)].
  - destruct (addPath_refused _ _ Href) as [-> _]. done.
  - rewrite (addPath_accepted _ _ He Ht Hs). simpl.
    destruct (purge_local_frame (length (pathsCache st)) (pathsCache st).*1 (pathsCache st))
      as [Hf Hsub].
    split; [done|]. split; [done|]. by apply prefix_app_r.
Qed.

(** X14. A path that was accepted is refused the next time, with the state as
    the first call left it; this holds also when the first call ended with
    the RuntimeError of the cache loop. *)
Theorem addPath_twice p st :
  ~ path_refused (Some p) st ->
  addPath (Some p) (addPath (Some p) st).1 =
  ((addPath (Some p) st).1,
   Raise (CorpusException "the provided path has already been added")).
Proof.
  intros Hno.
  destruct (path_refused_dec (Some p) st) as [Href|(q & Hq & He & Ht & Hs)]; [done|].
  injection Hq as <-. rewrite (addPath_accepted _ _ He Ht Hs). cbn [fst].
  unfold addPath. rewrite He. simpl negb. cbv iota. cbn [pathsLocalTemp].
  rewrite bool_decide_eq_true_2; [done|].
  apply elem_of_app. right. by left.
Qed.

(** X15. The temporary path list never comes to hold a path twice. *)
Theorem addPath_no_duplicates filePath st :
  NoDup (pathsLocalTemp st) -> NoDup (pathsLocalTemp (addPath filePath st).1).
Proof.
  intros Hnd.
  destruct (path_refused_dec filePath st) as [Href|(p & -> & He & Ht & Hs)].
  - destruct (addPath_refused _ _ Href) as [-> _]. done.
  - rewrite (addPath_accepted _ _ He Ht Hs). simpl.
    apply NoDup_app. split; [done|]. split; [|apply NoDup_singleton].
    intros x Hx Hx'. apply list_elem_of_singleton in Hx' as ->. done.
Qed.

(** ** The corpus file path of a parsed stream *)

Section CharFacts.
Implicit Types (s t cur : string) (c d a : ascii).

Lemma replace_go_char_cons c new a s :
  PyStr.replace_go (String c "") new 0 (String a s) =
  if bool_decide (c = a)
  then new +:+ PyStr.replace_go (String c "") new 0 s
  else String a (PyStr.replace_go (String c "") new 0 s).
Proof.
  change (PyStr.replace_go (String c "") new 0 (String a s))
    with (if String.prefix (String c "") (String a s)
          then new +:+ PyStr.replace_go (String c "") new 0 s
          else String a (PyStr.replace_go (String c "") new 0 s)).
  by rewrite prefix_char.
Qed.

(** Splitting at one character and joining with another replaces the one
    by the other. *)
Lemma join_split_replace c d s : forall cur,
  PyStr.join (String d "") (PyStr.split_go (String c "") 0 cur s) =
  cur +:+ PyStr.replace_go (String c "") (String d "") 0 s.
Proof.
  induction s as [|a s IH]; intros cur.
  - simpl. by rewrite str_app_nil_r.
  - rewrite split_go_char_cons, replace_go_char_cons.
    destruct (bool_decide (c = a)).
    + specialize (IH "").
      destruct (PyStr.split_go (String c "") 0 "" s) as [|y l] eqn:Es.
      * by apply split_go_nonempty in Es.
      * by rewrite join_cons, IH.
    + by rewrite IH, str_app_snoc.
Qed.

Lemma replace_char_length c d s :
  String.length (PyStr.replace_go (String c "") (String d "") 0 s) = String.length s.
Proof.
  induction s as [|a s IH]; [done|]. rewrite replace_go_char_cons.
  destruct (bool_decide (c = a)).
  - rewrite str_app_cons, str_app_nil_l. simpl. by rewrite IH.
  - simpl. by rewrite IH.
Qed.

Lemma replace_char_free c d s :
  c <> d ->
  PyStr.contains (String c "") (PyStr.replace_go (String c "") (String d "") 0 s) = false.
Proof.
  intros Hne. induction s as [|a s IH]; [done|]. rewrite replace_go_char_cons.
  destruct (bool_decide (c = a)) eqn:E.
  - rewrite str_app_cons, str_app_nil_l, contains_char_cons, IH.
    by rewrite bool_decide_eq_false_2.
  - by rewrite contains_char_cons, E, IH.
Qed.

Lemma replace_char_same c s :
  PyStr.replace_go (String c "") (String c "") 0 s = s.
Proof.
  induction s as [|a s IH]; [done|]. rewrite replace_go_char_cons, IH.
  destruct (bool_decide (c = a)) eqn:E; [|done].
  apply bool_decide_eq_true_1 in E as ->. by rewrite str_app_cons, str_app_nil_l.
Qed.

Lemma drop_length_app s t : PyStr.drop (String.length s) (s +:+ t) = t.
Proof.
  induction s as [|a s IH]; [by destruct t|]. by rewrite str_app_cons.
Qed.

Lemma drop_all s n : String.length s <= n -> PyStr.drop n s = "".
Proof.
  revert n. induction s as [|a s IH]; intros [|n] H; simpl in *; try done; try lia.
  apply IH. lia.
Qed.

Lemma contains_char_app_or c s t :
  PyStr.contains (String c "") (s +:+ t) =
  PyStr.contains (String c "") s || PyStr.contains (String c "") t.
Proof.
  induction s as [|a s IH]; [done|].
  rewrite str_app_cons, !contains_char_cons, IH. by rewrite orb_assoc.
Qed.
End CharFacts.

(** X16. What [_addCorpusFilepath] stores for a path inside the corpus
    directory is the rest of the path after the directory and one more
    character, with every [os.sep] replaced by a slash: a string of the same
    length, free of [os.sep] where that is not the slash, and the rest
    itself where it is. The corpus directory itself gives the empty string,
    and a path that does not start with the corpus directory is stored as
    it is. *)
Theorem _addCorpusFilepath_relative c rest :
  _addCorpusFilepath (corpusFilePath +:+ String c rest) =
    PyStr.replace rest (String os_sep "") "/" /\
  String.length (_addCorpusFilepath (corpusFilePath +:+ String c rest)) =
    String.length rest /\
  (os_sep <> "/"%char ->
   PyStr.contains (String os_sep "")
     (_addCorpusFilepath (corpusFilePath +:+ String c rest)) = false) /\
  (os_sep = "/"%char -> _addCorpusFilepath (corpusFilePath +:+ String c rest) = rest) /\
  _addCorpusFilepath corpusFilePath = "" /\
  (forall filePath,
      PyStr.startswith filePath corpusFilePath = false ->
      _addCorpusFilepath filePath = filePath).
Proof.
  assert (E : _addCorpusFilepath (corpusFilePath +:+ String c rest) =
              PyStr.replace_go (String os_sep "") "/" 0 rest).
  { unfold _addCorpusFilepath, PyStr.startswith.
    rewrite (proj2 (prefix_spec corpusFilePath _)) by (by eexists).
    replace (String.length corpusFilePath + String.length (String os_sep ""))
      with (String.length (corpusFilePath +:+ String c "")).
    2:{ rewrite str_length_app. done. }
    rewrite <- (str_app_snoc corpusFilePath c rest).
    rewrite drop_length_app. unfold PyStr.split_char.
    by rewrite join_split_replace, str_app_nil_l. }
  split; [|split; [|split; [|split; [|split]]]].
  - rewrite E. unfold PyStr.replace. by destruct (String.eqb_spec (String os_sep "") "").
  - rewrite E. apply replace_char_length.
  - intros Hne. rewrite E. by apply replace_char_free.
  - intros ->. rewrite E. apply replace_char_same.
  - unfold _addCorpusFilepath, PyStr.startswith.
    rewrite (proj2 (prefix_spec corpusFilePath _)) by (exists ""; by rewrite str_app_nil_r).
    rewrite drop_all by lia. reflexivity.
  - intros filePath H. unfold _addCorpusFilepath. by rewrite H.
Qed.

(** ** Compression *)

(** The last path component of a name, and the name with the last
    component changed. *)
Lemma split_last_component c dir base :
  PyStr.contains (String c "") base = false ->
  PyStr.split_char c (dir +:+ String c base) = PyStr.split_char c dir ++ [base].
Proof. intros H. unfold PyStr.split_char. by apply split_go_char_last. Qed.

Lemma join_last_component c dir base :
  PyStr.contains (String c "") base = false ->
  PyStr.join (String c "") (PyStr.split_char c dir ++ [base]) = dir +:+ String c base.
Proof.
  intros H. rewrite <- (split_last_component c dir base H).
  unfold PyStr.split_char. by rewrite join_split_go_char, str_app_nil_l.
Qed.

Lemma split_one_component c base :
  PyStr.contains (String c "") base = false -> PyStr.split_char c base = [base].
Proof.
  intros H. unfold PyStr.split_char. by rewrite split_go_char_free, str_app_nil_l.
Qed.

(** A name [stem.ext] divides into a directory part and a last component
    [base.ext], or is one component, when the separator is not in [.ext]. *)
Lemma name_components c stem ext :
  PyStr.contains (String c "") ext = false ->
  (PyStr.contains (String c "") stem = false /\
   PyStr.split_char c (stem +:+ ext) = [stem +:+ ext]) \/
  (exists dir base,
      stem = dir +:+ String c base /\
      PyStr.contains (String c "") base = false /\
      PyStr.split_char c (stem +:+ ext) = PyStr.split_char c dir ++ [base +:+ ext]).
Proof.
  intros Hext. destruct (PyStr.contains (String c "") stem) eqn:Hs.
  - right. destruct (contains_char_last _ _ Hs) as (dir & base & -> & Hb).
    exists dir, base. split; [done|]. split; [done|].
    rewrite str_app_assoc, str_app_cons. apply split_last_component.
    by rewrite contains_char_app_or, Hb, Hext.
  - left. split; [done|]. apply split_one_component.
    by rewrite contains_char_app_or, Hs, Hext.
Qed.

(** The archive name [compressXML] computes is the file name with its final
    [.xml] replaced by [.mxl]. *)
Lemma compressXML_newFilename stem :
  PyStr.contains (String os_sep "") ".xml" = false ->
  PyStr.join (String os_sep "")
    (removelast (PyStr.split_char os_sep (stem +:+ ".xml")) ++
     [PyStr.take (String.length (List.last (PyStr.split_char os_sep (stem +:+ ".xml")) "") - 4)
                 (List.last (PyStr.split_char os_sep (stem +:+ ".xml")) "") +:+ ".mxl"]) =
  stem +:+ ".mxl".
Proof.
  intros Hsep.
  assert (Hmxl : PyStr.contains (String os_sep "") ".mxl" = false).
  { revert Hsep. rewrite !contains_char_cons, !contains_char_nil.
    intros H. repeat (apply orb_false_iff in H as [? H]).
    repeat (apply orb_false_iff; split); done. }
  destruct (name_components os_sep stem ".xml" Hsep)
    as [[Hs ->]|(dir & base & -> & Hb & ->)].
  - simpl removelast. simpl List.last. rewrite (take_stem stem ".xml") by done.
    reflexivity.
  - rewrite removelast_last, last_last, (take_stem base ".xml") by done.
    rewrite join_last_component.
    + by rewrite str_app_assoc, str_app_cons.
    + by rewrite contains_char_app_or, Hb, Hmxl.
Qed.

Ltac sublist_auto :=
  repeat first [ apply sublist_nil | apply sublist_skip | apply sublist_cons ].

Ltac not_in_calls H :=
  repeat (apply elem_of_cons in H as [H|H]; [discriminate H|]);
  apply elem_of_nil in H; destruct H.

(** Closes an implication whose premise cannot hold: a call that raised
    taken to have returned, or a removal that was not requested. *)
Ltac impossible :=
  intros;
  repeat match goal with H : _ /\ _ |- _ => destruct H end;
  first [ congruence | match goal with H : _ ∈ _ |- _ => not_in_calls H end ].

(** A run that stopped at a call that raised. *)
Ltac stopped_run :=
  split; [by rewrite <- ?app_assoc|];
  split; [sublist_auto|];
  split; [split; impossible|];
  split; [split; impossible|impossible].

(** The calls of [compressXML] for given names: how far they go, when the
    removal is requested and when the whole returns. *)
Lemma compress_run msg archive filename archivedName name bytes (deleteOriginal : bool) h :
  let zip := [Warn msg; ZipOpen archive "w"; ZipWrite archive filename archivedName;
              ZipWriteStr archive name bytes; ZipClose archive] in
  exists calls r,
    sys_bind (sys_call (Warn msg)) (fun _ =>
      sys_bind
        (with_zip archive "w"
           (sys_bind (sys_call (ZipWrite archive filename archivedName)) (fun _ =>
            sys_call (ZipWriteStr archive name bytes))))
        (fun _ => if deleteOriginal then sys_call (OsRemove filename) else sys_ret tt)) h =
    (h ++ calls, r) /\
    calls `sublist_of` zip ++ [OsRemove filename] /\
    (OsRemove filename ∈ calls <-> deleteOriginal = true /\ all_return h zip) /\
    (r = Ok tt <->
     all_return h zip /\
     (deleteOriginal = true -> sys_outcome (h ++ zip) (OsRemove filename) = None)) /\
    (all_return h zip ->
     calls = zip ++ (if deleteOriginal then [OsRemove filename] else [])).
Proof.
  intros zip. unfold zip, sys_bind, with_zip, sys_call, sys_ret. cbn [all_return].
  destruct (sys_outcome h (Warn msg)) as [e1|] eqn:E1.
  { exists [Warn msg], (Raise e1). stopped_run. }
  destruct (sys_outcome (h ++ [Warn msg]) (ZipOpen archive "w")) as [e2|] eqn:E2.
  { exists [Warn msg; ZipOpen archive "w"], (Raise e2). stopped_run. }
  destruct (sys_outcome ((h ++ [Warn msg]) ++ [ZipOpen archive "w"])
              (ZipWrite archive filename archivedName)) as [e3|] eqn:E3.
  { destruct (sys_outcome (((h ++ [Warn msg]) ++ [ZipOpen archive "w"]) ++
                [ZipWrite archive filename archivedName]) (ZipClose archive)) as [e5|] eqn:E5.
    - exists [Warn msg; ZipOpen archive "w"; ZipWrite archive filename archivedName;
              ZipClose archive], (Raise e5). stopped_run.
    - exists [Warn msg; ZipOpen archive "w"; ZipWrite archive filename archivedName;
              ZipClose archive], (Raise e3). stopped_run. }
  destruct (sys_outcome (((h ++ [Warn msg]) ++ [ZipOpen archive "w"]) ++
              [ZipWrite archive filename archivedName])
              (ZipWriteStr archive name bytes)) as [e4|] eqn:E4.
  { destruct (sys_outcome ((((h ++ [Warn msg]) ++ [ZipOpen archive "w"]) ++
                [ZipWrite archive filename archivedName]) ++
                [ZipWriteStr archive name bytes]) (ZipClose archive)) as [e5|] eqn:E5.
    - exists [Warn msg; ZipOpen archive "w"; ZipWrite archive filename archivedName;
              ZipWriteStr archive name bytes; ZipClose archive], (Raise e5). stopped_run.
    - exists [Warn msg; ZipOpen archive "w"; ZipWrite archive filename archivedName;
              ZipWriteStr archive name bytes; ZipClose archive], (Raise e4). stopped_run. }
  destruct (sys_outcome ((((h ++ [Warn msg]) ++ [ZipOpen archive "w"]) ++
              [ZipWrite archive filename archivedName]) ++
              [ZipWriteStr archive name bytes]) (ZipClose archive)) as [e5|] eqn:E5.
  { exists [Warn msg; ZipOpen archive "w"; ZipWrite archive filename archivedName;
            ZipWriteStr archive name bytes; ZipClose archive], (Raise e5). stopped_run. }
  destruct deleteOriginal.
  - exists [Warn msg; ZipOpen archive "w"; ZipWrite archive filename archivedName;
            ZipWriteStr archive name bytes; ZipClose archive; OsRemove filename].
    eexists. split; [by rewrite <- !app_assoc|]. split; [sublist_auto|].
    split; [|split; [|done]].
    + split; [done|]. intros _. do 5 right. by left.
    + simpl app.
      destruct (sys_outcome _ (OsRemove filename)) as [e6|] eqn:E6.
      * split; [discriminate|]. intros [_ H]. by specialize (H eq_refl).
      * done.
  - exists [Warn msg; ZipOpen archive "w"; ZipWrite archive filename archivedName;
            ZipWriteStr archive name bytes; ZipClose archive], (Ok tt).
    split; [by rewrite <- !app_assoc|]. split; [sublist_auto|].
    split; [split; impossible|]. split; [|done].
    split; [|done]. intros _. split; [done|]. intros H. discriminate H.
Qed.

(** The calls of [uncompressMXL] for given names. *)
Lemma uncompress_run msg filename member path (deleteOriginal : bool) h :
  let zip := [Warn msg; ZipOpen filename "r"; ZipExtract filename member path;
              ZipClose filename] in
  exists calls r,
    sys_bind (sys_call (Warn msg)) (fun _ =>
      sys_bind
        (with_zip filename "r" (sys_call (ZipExtract filename member path)))
        (fun _ => if deleteOriginal then sys_call (OsRemove filename) else sys_ret tt)) h =
    (h ++ calls, r) /\
    calls `sublist_of` zip ++ [OsRemove filename] /\
    (OsRemove filename ∈ calls <-> deleteOriginal = true /\ all_return h zip) /\
    (r = Ok tt <->
     all_return h zip /\
     (deleteOriginal = true -> sys_outcome (h ++ zip) (OsRemove filename) = None)) /\
    (all_return h zip ->
     calls = zip ++ (if deleteOriginal then [OsRemove filename] else [])).
Proof.
  intros zip. unfold zip, sys_bind, with_zip, sys_call, sys_ret. cbn [all_return].
  destruct (sys_outcome h (Warn msg)) as [e1|] eqn:E1.
  { exists [Warn msg], (Raise e1). stopped_run. }
  destruct (sys_outcome (h ++ [Warn msg]) (ZipOpen filename "r")) as [e2|] eqn:E2.
  { exists [Warn msg; ZipOpen filename "r"], (Raise e2). stopped_run. }
  destruct (sys_outcome ((h ++ [Warn msg]) ++ [ZipOpen filename "r"])
              (ZipExtract filename member path)) as [e3|] eqn:E3.
  { destruct (sys_outcome (((h ++ [Warn msg]) ++ [ZipOpen filename "r"]) ++
                [ZipExtract filename member path]) (ZipClose filename)) as [e5|] eqn:E5.
    - exists [Warn msg; ZipOpen filename "r"; ZipExtract filename member path;
              ZipClose filename], (Raise e5). stopped_run.
    - exists [Warn msg; ZipOpen filename "r"; ZipExtract filename member path;
              ZipClose filename], (Raise e3). stopped_run. }
  destruct (sys_outcome (((h ++ [Warn msg]) ++ [ZipOpen filename "r"]) ++
              [ZipExtract filename member path]) (ZipClose filename)) as [e5|] eqn:E5.
  { exists [Warn msg; ZipOpen filename "r"; ZipExtract filename member path;
            ZipClose filename], (Raise e5). stopped_run. }
  destruct deleteOriginal.
  - exists [Warn msg; ZipOpen filename "r"; ZipExtract filename member path;
            ZipClose filename; OsRemove filename].
    eexists. split; [by rewrite <- !app_assoc|]. split; [sublist_auto|].
    split; [|split; [|done]].
    + split; [done|]. intros _. do 4 right. by left.
    + simpl app.
      destruct (sys_outcome _ (OsRemove filename)) as [e6|] eqn:E6.
      * split; [discriminate|]. intros [_ H]. by specialize (H eq_refl).
      * done.
  - exists [Warn msg; ZipOpen filename "r"; ZipExtract filename member path;
            ZipClose filename], (Ok tt).
    split; [by rewrite <- !app_assoc|]. split; [sublist_auto|].
    split; [split; impossible|]. split; [|done].
    split; [|done]. intros _. split; [done|]. intros H. discriminate H.
Qed.

(** The last path component of a name [stem.ext]. *)
Lemma last_component stem ext :
  PyStr.contains (String os_sep "") ext = false ->
  PyStr.contains (String os_sep "")
    (List.last (PyStr.split_char os_sep (stem +:+ ext)) "") = false /\
  (stem +:+ ext = List.last (PyStr.split_char os_sep (stem +:+ ext)) "" \/
   exists dir,
     stem +:+ ext =
     dir +:+ String os_sep (List.last (PyStr.split_char os_sep (stem +:+ ext)) "")).
Proof.
  intros Hext.
  destruct (name_components os_sep stem ext Hext)
    as [[Hs ->]|(dir & base & -> & Hb & ->)].
  - simpl List.last. split; [|by left].
    by rewrite contains_char_app_or, Hs, Hext.
  - rewrite last_last. split.
    + by rewrite contains_char_app_or, Hb, Hext.
    + right. exists dir. by rewrite str_app_assoc, str_app_cons.
Qed.

Lemma sys_bind_ext {X Y} (m : Sys X) (k k' : X -> Sys Y) h :
  (forall a h1, k a h1 = k' a h1) -> sys_bind m k h = sys_bind m k' h.
Proof. intros H. unfold sys_bind. destruct (m h) as [h1 [a|e]]; [apply H|done]. Qed.

(** [compressXML] on a name in [.xml], with the names it computes. *)
Lemma compressXML_script stem (deleteOriginal : bool) h :
  PyStr.contains (String os_sep "") ".xml" = false ->
  compressXML (stem +:+ ".xml") deleteOriginal h =
  sys_bind (sys_call (Warn ("Updating file: " +:+ (stem +:+ ".xml")))) (fun _ =>
    sys_bind
      (with_zip (stem +:+ ".mxl") "w"
         (sys_bind
            (sys_call (ZipWrite (stem +:+ ".mxl") (stem +:+ ".xml")
                         (List.last (PyStr.split_char os_sep (stem +:+ ".xml")) "")))
            (fun _ =>
             sys_call (ZipWriteStr (stem +:+ ".mxl")
                         ("META-INF" +:+ String os_sep "" +:+ "container.xml")
                         (container_xml
                            (List.last (PyStr.split_char os_sep (stem +:+ ".xml")) ""))))))
      (fun _ => if deleteOriginal then sys_call (OsRemove (stem +:+ ".xml")) else sys_ret tt)) h.
Proof.
  intros Hsep. unfold compressXML. rewrite endswith_app. simpl negb. cbv iota.
  apply sys_bind_ext. intros _ h1.
  cbv zeta. by rewrite (compressXML_newFilename stem Hsep).
Qed.

(** X17. For a name [stem.xml], where [os.sep] is none of the characters of
    [.xml]: the archive [compressXML] writes is [stem.mxl], beside the
    original, and the member and the manifest carry the last path component
    of the name. The calls made are, in order, some of: the warning, opening,
    writing the member, writing the manifest, closing, removing the original.
    The removal is requested exactly when [deleteOriginal] is set and the
    five calls before it have all returned; the call returns exactly when
    all its calls have returned. A name not in [.xml] causes no call. *)
Theorem compressXML_archive stem (deleteOriginal : bool) h :
  PyStr.contains (String os_sep "") ".xml" = false ->
  exists archivedName calls r,
    PyStr.contains (String os_sep "") archivedName = false /\
    (stem +:+ ".xml" = archivedName \/
     exists dir, stem +:+ ".xml" = dir +:+ String os_sep archivedName) /\
    compressXML (stem +:+ ".xml") deleteOriginal h = (h ++ calls, r) /\
    calls `sublist_of`
      compress_calls (stem +:+ ".mxl") (stem +:+ ".xml") archivedName ++
      [OsRemove (stem +:+ ".xml")] /\
    (OsRemove (stem +:+ ".xml") ∈ calls <->
     deleteOriginal = true /\
     all_return h (compress_calls (stem +:+ ".mxl") (stem +:+ ".xml") archivedName)) /\
    (r = Ok tt <->
     all_return h (compress_calls (stem +:+ ".mxl") (stem +:+ ".xml") archivedName) /\
     (deleteOriginal = true ->
      sys_outcome (h ++ compress_calls (stem +:+ ".mxl") (stem +:+ ".xml") archivedName)
                  (OsRemove (stem +:+ ".xml")) = None)) /\
    (forall other h',
        PyStr.endswith other ".xml" = false ->
        compressXML other deleteOriginal h' = (h', Ok tt)).
Proof.
  intros Hsep.
  destruct (last_component stem ".xml" Hsep) as [Hfree Hlast].
  destruct (compress_run ("Updating file: " +:+ (stem +:+ ".xml"))
              (stem +:+ ".mxl") (stem +:+ ".xml")
              (List.last (PyStr.split_char os_sep (stem +:+ ".xml")) "")
              ("META-INF" +:+ String os_sep "" +:+ "container.xml")
              (container_xml (List.last (PyStr.split_char os_sep (stem +:+ ".xml")) ""))
              deleteOriginal h) as (calls & r & Hrun & Hsub & Hrem & Hret & _).
  exists (List.last (PyStr.split_char os_sep (stem +:+ ".xml")) ""), calls, r.
  split; [done|]. split; [done|].
  split; [by rewrite compressXML_script|].
  split; [done|]. split; [done|]. split; [done|].
  intros other h' Hother. unfold compressXML. by rewrite Hother.
Qed.

(** [uncompressMXL] on a name [dir/base.mxl], with the names it computes. *)
Lemma uncompressMXL_script dir base (deleteOriginal : bool) h :
  PyStr.contains (String os_sep "") ".mxl" = false ->
  PyStr.contains (String os_sep "") base = false ->
  os_path_splitext (base +:+ ".mxl") = (base, ".mxl") ->
  uncompressMXL (dir +:+ String os_sep (base +:+ ".mxl")) deleteOriginal h =
  sys_bind
    (sys_call (Warn ("Updating file: " +:+ (dir +:+ String os_sep (base +:+ ".mxl")))))
    (fun _ =>
       sys_bind
         (with_zip (dir +:+ String os_sep (base +:+ ".mxl")) "r"
            (sys_call (ZipExtract (dir +:+ String os_sep (base +:+ ".mxl"))
                         (base +:+ ".xml") dir)))
         (fun _ => if deleteOriginal
                   then sys_call (OsRemove (dir +:+ String os_sep (base +:+ ".mxl")))
                   else sys_ret tt)) h.
Proof.
  intros Hsep Hbase Hsplit. unfold uncompressMXL.
  assert (Hends : PyStr.endswith (dir +:+ String os_sep (base +:+ ".mxl")) ".mxl" = true).
  { apply endswith_spec. exists (dir +:+ String os_sep base).
    by rewrite str_app_assoc, str_app_cons. }
  rewrite Hends. simpl negb. cbv iota.
  apply sys_bind_ext. intros _ h1.
  cbv zeta.
  assert (Hfree : PyStr.contains (String os_sep "") (base +:+ ".mxl") = false)
    by (by rewrite contains_char_app_or, Hbase, Hsep).
  rewrite (split_last_component os_sep dir (base +:+ ".mxl") Hfree).
  rewrite removelast_last, last_last, Hsplit. cbn [fst].
  unfold PyStr.split_char. by rewrite join_split_go_char, str_app_nil_l.
Qed.

(** X18. For a name [dir/base.mxl], where [os.sep] is none of the characters of
    [.mxl] and [os.path.splitext] divides [base.mxl] into [base] and [.mxl]:
    [uncompressMXL] extracts the member [base.xml] of the archive into
    [dir]. The removal of the archive is requested exactly when
    [deleteOriginal] is set and the warning, opening, extraction and closing
    have all returned. A name not in [.mxl] causes no call. *)
Theorem uncompressMXL_extraction dir base (deleteOriginal : bool) h :
  PyStr.contains (String os_sep "") ".mxl" = false ->
  PyStr.contains (String os_sep "") base = false ->
  os_path_splitext (base +:+ ".mxl") = (base, ".mxl") ->
  exists calls r,
    uncompressMXL (dir +:+ String os_sep (base +:+ ".mxl")) deleteOriginal h =
      (h ++ calls, r) /\
    calls `sublist_of`
      uncompress_calls (dir +:+ String os_sep (base +:+ ".mxl")) (base +:+ ".xml") dir ++
      [OsRemove (dir +:+ String os_sep (base +:+ ".mxl"))] /\
    (OsRemove (dir +:+ String os_sep (base +:+ ".mxl")) ∈ calls <->
     deleteOriginal = true /\
     all_return h (uncompress_calls (dir +:+ String os_sep (base +:+ ".mxl"))
                     (base +:+ ".xml") dir)) /\
    (r = Ok tt <->
     all_return h (uncompress_calls (dir +:+ String os_sep (base +:+ ".mxl"))
                     (base +:+ ".xml") dir) /\
     (deleteOriginal = true ->
      sys_outcome (h ++ uncompress_calls (dir +:+ String os_sep (base +:+ ".mxl"))
                          (base +:+ ".xml") dir)
                  (OsRemove (dir +:+ String os_sep (base +:+ ".mxl"))) = None)) /\
    (forall other h',
        PyStr.endswith other ".mxl" = false ->
        uncompressMXL other deleteOriginal h' = (h', Ok tt)).
Proof.
  intros Hsep Hbase Hsplit.
  destruct (uncompress_run ("Updating file: " +:+ (dir +:+ String os_sep (base +:+ ".mxl")))
              (dir +:+ String os_sep (base +:+ ".mxl")) (base +:+ ".xml") dir
              deleteOriginal h) as (calls & r & Hrun & Hsub & Hrem & Hret & _).
  exists calls, r.
  split; [by rewrite uncompressMXL_script|].
  split; [done|]. split; [done|]. split; [done|].
  intros other h' Hother. unfold uncompressMXL. by rewrite Hother.
Qed.

(** The only removal [compressXML] can request is that of its own file, a
    name in [.xml], with [deleteOriginal] set. *)
Lemma compressXML_removes_own filename (deleteOriginal : bool) h :
  exists calls r,
    compressXML filename deleteOriginal h = (h ++ calls, r) /\
    forall f, OsRemove f ∈ calls ->
              f = filename /\ deleteOriginal = true /\ PyStr.endswith filename ".xml" = true.
Proof.
  destruct (PyStr.endswith filename ".xml") eqn:E.
  - pose proof (compress_run ("Updating file: " +:+ filename)
                  (PyStr.join (String os_sep "")
                     (removelast (PyStr.split_char os_sep filename) ++
                      [PyStr.take
                         (String.length (List.last (PyStr.split_char os_sep filename) "") - 4)
                         (List.last (PyStr.split_char os_sep filename) "") +:+ ".mxl"]))
                  filename (List.last (PyStr.split_char os_sep filename) "")
                  ("META-INF" +:+ String os_sep "" +:+ "container.xml")
                  (container_xml (List.last (PyStr.split_char os_sep filename) ""))
                  deleteOriginal h) as Hrun.
    cbv zeta in Hrun. destruct Hrun as (calls & r & Hrun & Hsub & Hrem & _).
    exists calls, r. split.
    + unfold compressXML. rewrite E. exact Hrun.
    + intros f Hf.
      assert (Hf' : f = filename).
      { pose proof (elem_of_sublist _ _ _ Hf Hsub) as Hf'.
        apply elem_of_app in Hf' as [Hf'|Hf']; [not_in_calls Hf'|].
        rename Hf' into Hf0.
        apply list_elem_of_singleton in Hf0. by injection Hf0. }
      subst f. split; [done|]. split; [|done]. by apply Hrem in Hf as [? _].
  - exists [], (Ok tt). split.
    + unfold compressXML. rewrite E. by rewrite app_nil_r.
    + intros f Hf. by apply elem_of_nil in Hf.
Qed.

(** The calls of a loop are calls of its rounds. *)
Lemma sys_for_each_calls {X} (body : X -> Sys unit) (Q : X -> SysCall -> Prop) l :
  (forall x h, exists calls r,
      body x h = (h ++ calls, r) /\ forall c, c ∈ calls -> Q x c) ->
  forall h, exists calls r,
    sys_for_each body l h = (h ++ calls, r) /\
    forall c, c ∈ calls -> exists x, x ∈ l /\ Q x c.
Proof.
  intros Hbody. induction l as [|x l IH]; intros h.
  - exists [], (Ok tt). split; [by rewrite app_nil_r|].
    intros c Hc. by apply elem_of_nil in Hc.
  - simpl. unfold sys_bind.
    destruct (Hbody x h) as (calls1 & r1 & -> & H1).
    destruct r1 as [[]|e].
    + destruct (IH (h ++ calls1)) as (calls2 & r2 & -> & H2).
      exists (calls1 ++ calls2), r2. split; [by rewrite app_assoc|].
      intros c Hc. apply elem_of_app in Hc as [Hc|Hc].
      * exists x. split; [by left|by apply H1].
      * destruct (H2 c Hc) as (y & Hy & HQ). exists y. split; [by right|done].
    + exists calls1, (Raise e). split; [done|].
      intros c Hc. exists x. split; [by left|by apply H1].
Qed.

(** X20. [compressAllXMLFiles] requests the removal of a file only when
    [deleteOriginal] is set, and only of a path in [.xml] that [getPaths]
    lists for the extension [.xml]. *)
Theorem compressAllXMLFiles_removals (deleteOriginal : bool) h :
  exists calls r,
    compressAllXMLFiles deleteOriginal h = (h ++ calls, r) /\
    forall f, OsRemove f ∈ calls ->
              deleteOriginal = true /\
              f ∈ getPaths (ExtList [Some ".xml"]) true all_domains /\
              PyStr.endswith f ".xml" = true.
Proof.
  unfold compressAllXMLFiles.
  set (paths := getPaths (ExtList [Some ".xml"]) true all_domains).
  set (done_msg := "Compression complete. " +:+ _).
  pose proof (sys_for_each_calls
                (fun filename => compressXML filename deleteOriginal)
                (fun filename c => forall f, c = OsRemove f ->
                   f = filename /\ deleteOriginal = true /\
                   PyStr.endswith filename ".xml" = true)
                paths) as Hloop.
  assert (Hbody : forall x h0, exists calls r,
             compressXML x deleteOriginal h0 = (h0 ++ calls, r) /\
             forall c, c ∈ calls -> forall f, c = OsRemove f ->
               f = x /\ deleteOriginal = true /\ PyStr.endswith x ".xml" = true).
  { intros x h0. destruct (compressXML_removes_own x deleteOriginal h0)
      as (calls & r & Hrun & Hrem).
    exists calls, r. split; [done|]. intros c Hc f ->. by apply Hrem. }
  specialize (Hloop Hbody). clear Hbody.
  unfold sys_bind at 1. unfold sys_call at 1.
  destruct (sys_outcome h (Warn "Compressing musicXML files...")) as [e|].
  { exists [Warn "Compressing musicXML files..."], (Raise e). split; [done|].
    intros f Hf. not_in_calls Hf. }
  unfold sys_bind at 1.
  destruct (Hloop (h ++ [Warn "Compressing musicXML files..."]))
    as (calls & r & -> & Hcalls).
  assert (Hrem : forall f, OsRemove f ∈ calls ->
             deleteOriginal = true /\ f ∈ paths /\ PyStr.endswith f ".xml" = true).
  { intros f Hf. destruct (Hcalls _ Hf) as (x & Hx & HQ).
    destruct (HQ f eq_refl) as (-> & Hd & He). done. }
  destruct r as [[]|e].
  - unfold sys_call. eexists (_ :: calls ++ [Warn done_msg]), _.
    split; [by rewrite <- !app_assoc|].
    intros f Hf. apply elem_of_cons in Hf as [Hf|Hf]; [discriminate Hf|].
    apply elem_of_app in Hf as [Hf|Hf]; [by apply Hrem|not_in_calls Hf].
  - exists (Warn "Compressing musicXML files..." :: calls), (Raise e).
    split; [by rewrite <- !app_assoc|].
    intros f Hf. apply elem_of_cons in Hf as [Hf|Hf]; [discriminate Hf|].
    by apply Hrem.
Qed.

End Corpus.

(** * The model on the small corpus *)

Example getComposer_verdi :
  getComposer "/" demo_core_paths demo_no_paths demo_no_paths "verdi" ExtNone =
  ["/corpus/verdi/laDonnaEMobile.mxl"].
Proof. reflexivity. Qed.

Example getComposer_bach :
  getComposer "/" demo_core_paths demo_no_paths demo_no_paths "BACH" ExtNone =
  ["/corpus/bach/bwv1.xml"; "/corpus/bach/bwv2/a.krn"; "/corpus/bach/bwv2/b.xml"].
Proof. reflexivity. Qed.

(** The file name [madrigal.3.1.xml] is matched through its stem
    [madrigal.3.1], the name without its last dot group. *)
Example getComposer_stem :
  getComposer "/" demo_core_paths demo_no_paths demo_no_paths "madrigal.3.1" ExtNone =
  ["/corpus/monteverdi/madrigal.3.1.xml"].
Proof. reflexivity. Qed.

Example getWork_sequence_xml :
  getWork "/" (option nat) demo_getWorkList demo_virtual demo_getUrlByExt
          (NameSeq ["haydn"; "opus74no2"; "movement4.xml"]) None ExtNone =
  ([CoreLookup (NameSeq ["haydn"; "opus74no2"; "movement4.xml"]) (ExtList [None]);
    CoreLookup (NameStr "haydn/opus74no2/movement4.mxl") (ExtList [None])],
   Ok (OnePath "/corpus/haydn/opus74no2/movement4.mxl")).
Proof. vm_compute. reflexivity. Qed.

Example getWork_virtual :
  getWork "/" (option nat) demo_getWorkList demo_virtual demo_getUrlByExt
          (NameStr "bach/bwv1007") None ExtNone =
  ([CoreLookup (NameStr "bach/bwv1007") (ExtList [None]);
    VirtualLookup "bach/bwv1007" (ExtList [None])],
   Ok (PathList ["http://kern.example.org/bach/bwv1007-01.krn";
                 "http://kern.example.org/bach/bwv1007-01.xml"])).
Proof. vm_compute. reflexivity. Qed.

Example getWork_junk :
  (getWork "/" (option nat) demo_getWorkList demo_virtual demo_getUrlByExt
           (NameStr "junk") None ExtNone).2 =
  Raise (CorpusException "Could not find a file/url that met these criteria").
Proof. vm_compute. reflexivity. Qed.

(** The hypotheses of [getWork_xml_retry] hold for the sequence
    [haydn, opus74no2, movement4.xml] of the small corpus. *)
Lemma getWork_xml_retry_witness :
  getWorkList (option nat) demo_getWorkList
    (NameSeq ["haydn"; "opus74no2"; "movement4.xml"]) None (listify ExtNone) = [] /\
  joined_name "/" (NameSeq ["haydn"; "opus74no2"; "movement4.xml"]) =
    "haydn/opus74no2/movement4" +:+ ".xml" /\
  getWork "/" (option nat) demo_getWorkList demo_virtual demo_getUrlByExt
          (NameSeq ["haydn"; "opus74no2"; "movement4.xml"]) None ExtNone =
  (CoreLookup (NameSeq ["haydn"; "opus74no2"; "movement4.xml"]) (listify ExtNone) ::
     (getWork "/" (option nat) demo_getWorkList demo_virtual demo_getUrlByExt
              (NameStr ("haydn/opus74no2/movement4" +:+ ".mxl")) None (listify ExtNone)).1,
   (getWork "/" (option nat) demo_getWorkList demo_virtual demo_getUrlByExt
            (NameStr ("haydn/opus74no2/movement4" +:+ ".mxl")) None (listify ExtNone)).2).
Proof.
  split; [reflexivity|]. split; [reflexivity|].
  apply (getWork_xml_retry "/" (option nat) demo_getWorkList demo_virtual demo_getUrlByExt
           (NameSeq ["haydn"; "opus74no2"; "movement4.xml"]) None ExtNone
           "haydn/opus74no2/movement4"); reflexivity.
Defined.

Lemma demo_bwv1_matches_bach : vw_matches "Bach" demo_bwv1.
Proof. exists "bach/bwv1". split; [reflexivity|]. by exists "", "/bwv1". Defined.

Lemma demo_prelude_matches_bach : vw_matches "Bach" demo_prelude.
Proof. exists "bach/bwv1007/prelude". split; [reflexivity|]. by exists "", "/bwv1007/prelude". Defined.

(** Both virtual works of the small corpus match "Bach"; the URLs are those
    of the first. *)
Lemma getVirtualWorkList_first_only_witness :
  vw_matches "Bach" demo_bwv1 /\
  vw_matches "Bach" demo_prelude /\
  getVirtualWorkList (option nat) demo_virtual demo_getUrlByExt "Bach" None ExtNone =
  ["http://kern.example.org/bach/bwv1.krn"].
Proof.
  split; [exact demo_bwv1_matches_bach|]. split; [exact demo_prelude_matches_bach|].
  apply (getVirtualWorkList_first_only (option nat) demo_virtual demo_getUrlByExt
           "Bach" None ExtNone [] demo_bwv1 [demo_prelude]).
  - reflexivity.
  - intros o Ho. by apply elem_of_nil in Ho.
  - exact demo_bwv1_matches_bach.
Defined.

(** C8, on the small corpus: the cache holds two listings of the local
    domain. The call appends the path, deletes the first of the two, and
    ends with RuntimeError at the next step of the loop; the second listing
    of the local domain is still cached. *)
Theorem addPath_cache_loop_raises :
  addPath demo_exists [] (Some "/home/user/more") demo_state =
  ({| pathsCache :=
        [ ({| key_domain := "core"; key_rest := [] |}, ["/corpus/bach/bwv1.xml"]);
          ({| key_domain := "local"; key_rest := ["krn"] |}, ["/home/user/scores/b.krn"]) ];
      pathsLocalTemp := ["/home/user/scores"; "/home/user/more"] |},
   Raise (RuntimeError "dictionary changed size during iteration")).
Proof. reflexivity. Qed.

Lemma demo_more_accepted : ~ path_refused demo_exists [] (Some "/home/user/more") demo_state.
Proof.
  intros [H|(p & Hp & [H|[H|H]])]; [discriminate H|discriminate H| |].
  - injection Hp as <-. apply list_elem_of_singleton in H. discriminate H.
  - by apply elem_of_nil in H.
Defined.

(** C7, on the small corpus. None of the three conditions for refusing a
    path holds, and the cache holds a listing of the local domain: the call
    raises (the RuntimeError of the cache loop) although the path has
    already been appended to the temporary path list, which is therefore
    not as it was before the call. *)
Theorem addPath_raises_with_path_appended :
  ~ path_refused demo_exists [] (Some "/home/user/more") demo_state /\
  (addPath demo_exists [] (Some "/home/user/more") demo_state).2 =
    Raise (RuntimeError "dictionary changed size during iteration") /\
  pathsLocalTemp (addPath demo_exists [] (Some "/home/user/more") demo_state).1 =
    pathsLocalTemp demo_state ++ ["/home/user/more"] /\
  pathsLocalTemp (addPath demo_exists [] (Some "/home/user/more") demo_state).1 <>
    pathsLocalTemp demo_state.
Proof.
  split; [exact demo_more_accepted|].
  split; [reflexivity|]. split; [reflexivity|].
  vm_compute. discriminate.
Qed.

(** The index of the small corpus, and of the composer table with no files. *)
Local Abbreviation demo_references :=
  (getWorkReferences "/" demo_core_paths demo_no_paths demo_no_paths demo_virtual
     demo_composers demo_findFormatExt demo_findFormatExt demo_same demo_same
     demo_path_join demo_items demo_dict_lt).

Local Abbreviation table_references :=
  (getWorkReferences "/" demo_no_paths demo_no_paths demo_no_paths []
     COMPOSERS demo_findFormatExt demo_findFormatExt demo_same demo_same
     demo_path_join demo_items demo_dict_lt).

Example table_references_sorted :
  exists refs,
    table_references true = Ok refs /\
    ref_composerDir <$> refs =
    ["airdsAirs"; "bach"; "beethoven"; "ciconia"; "cpebach"; "essenFolksong";
     "handel"; "haydn"; "josquin"; "luca"; "miscFolk"; "monteverdi"; "mozart";
     "oneills1850"; "ryansMammoth"; "schoenberg"; "schumann"].
Proof. eexists. split; vm_compute; reflexivity. Qed.

(** C5 as stated fails on the composer table of the module: sorted, the
    entry of [ciconia] comes before the entry of [cpebach], which the table
    lists first. *)
Lemma sorted_order_is_not_table_order :
  exists refs,
    table_references true = Ok refs /\
    ref_composerDir <$> refs <> COMPOSERS.*1 /\
    (ref_composerDir <$> refs) !! 3 = Some "ciconia" /\
    COMPOSERS.*1 !! 3 = Some "cpebach".
Proof.
  eexists. split; [vm_compute; reflexivity|].
  split; [|split; reflexivity].
  vm_compute. discriminate.
Qed.

Lemma getWorkReferences_order_witness :
  exists refs,
    table_references true = Ok refs /\
    (true = true -> StronglySorted String.le (ref_composerDir <$> refs)) /\
    (true = false -> exists extra, ref_composerDir <$> refs = COMPOSERS.*1 ++ extra).
Proof.
  eexists. split; [vm_compute; reflexivity|].
  apply (getWorkReferences_order "/" demo_no_paths demo_no_paths demo_no_paths []
           COMPOSERS demo_findFormatExt demo_findFormatExt demo_same demo_same
           demo_path_join demo_items demo_dict_lt true).
  vm_compute. reflexivity.
Defined.


(** * Two runs of the index builder

    Two invocations may see the path sources answer differently (another
    order of the listing, other files outside the composers' directories)
    and may iterate the work dictionaries in different orders. *)

Section TwoRuns.
Variable os_sep : ascii.
Variables Core1 Local1 Virtual1 : PyExt -> bool -> list string.
Variables Core2 Local2 Virtual2 : PyExt -> bool -> list string.
Variable virtual_objects : list VirtualWork.
Variable composers : list (string * string).
Variables findFormatExtFile findFormatExtURL : string -> option string * option string.
Variables spaceCamelCase str_title : string -> string.
Variable os_path_join : string -> string -> string.
Variables items1 items2 : gmap string WorkDict -> list (string * WorkDict).
Variable dict_lt : Ref -> Ref -> bool.

(** No corpus change: every composer of the table has the same listing. *)
Hypothesis same_listing : forall dir name,
  (dir, name) ∈ composers ->
  getComposer os_sep Core1 Local1 Virtual1 dir ExtNone =
  getComposer os_sep Core2 Local2 Virtual2 dir ExtNone.
(** Iterating a dictionary yields its items, each once. *)
Hypothesis items1_perm : forall works, items1 works ≡ₚ map_to_list works.
Hypothesis items2_perm : forall works, items2 works ≡ₚ map_to_list works.

Lemma add_composers_same table : forall results,
  (forall entry, entry ∈ table -> entry ∈ composers) ->
  for_each (add_composer os_sep Core1 Local1 Virtual1 findFormatExtFile
              spaceCamelCase str_title os_path_join) table results =
  for_each (add_composer os_sep Core2 Local2 Virtual2 findFormatExtFile
              spaceCamelCase str_title os_path_join) table results.
Proof.
  induction table as [|[dir name] table IH]; intros results Hin; [done|].
  rewrite !for_each_cons. unfold add_composer at 1 3.
  rewrite (same_listing dir name) by (apply Hin; by left).
  destruct (for_each _ (getComposer os_sep Core2 Local2 Virtual2 dir ExtNone) ∅);
    simpl; [|done].
  apply IH. intros entry He. apply Hin. by right.
Qed.

Lemma set_sorted_keys_same ref :
  set_sorted_keys items1 ref = set_sorted_keys items2 ref.
Proof.
  unfold set_sorted_keys. do 2 f_equal.
  by rewrite !sorted_work_keys_canonical.
Qed.

Lemma sort_results_same results :
  sort_results items1 dict_lt results = sort_results items2 dict_lt results.
Proof.
  unfold sort_results. do 2 f_equal.
  apply list_fmap_ext. intros i ref _. by rewrite set_sorted_keys_same.
Qed.

(** C9. Two invocations of [getWorkReferences] with the same composer
    table, the same listing for each composer and the same virtual works give
    equal results, whatever the order in which each run receives the paths
    and iterates its dictionaries. *)
Theorem getWorkReferences_same_result sort :
  getWorkReferences os_sep Core1 Local1 Virtual1 virtual_objects composers
    findFormatExtFile findFormatExtURL spaceCamelCase str_title os_path_join
    items1 dict_lt sort =
  getWorkReferences os_sep Core2 Local2 Virtual2 virtual_objects composers
    findFormatExtFile findFormatExtURL spaceCamelCase str_title os_path_join
    items2 dict_lt sort.
Proof.
  rewrite !getWorkReferences_unfold.
  rewrite (add_composers_same composers []) by done.
  destruct (for_each _ composers []) as [r1|e]; [|done].
  destruct (for_each _ (VIRTUAL virtual_objects) r1) as [r2|e]; [|done].
  destruct sort; [|done]. by rewrite sort_results_same.
Qed.

End TwoRuns.

Lemma demo_same_listing dir name :
  (dir, name) ∈ demo_composers ->
  getComposer "/" demo_core_paths demo_no_paths demo_no_paths dir ExtNone =
  getComposer "/" demo_core_paths_rev demo_no_paths demo_no_paths dir ExtNone.
Proof.
  intros Hin. apply elem_of_cons in Hin as [E|Hin]; [by injection E as -> ->|].
  apply elem_of_cons in Hin as [E|Hin]; [by injection E as -> ->|].
  by apply elem_of_nil in Hin.
Defined.

(** On the small corpus: one run lists the files and iterates the
    dictionaries in one order, the other run in the opposite order. *)
Lemma getWorkReferences_same_result_witness :
  getWorkReferences "/" demo_core_paths demo_no_paths demo_no_paths demo_virtual
    demo_composers demo_findFormatExt demo_findFormatExt demo_same demo_same
    demo_path_join demo_items demo_dict_lt true =
  getWorkReferences "/" demo_core_paths_rev demo_no_paths demo_no_paths demo_virtual
    demo_composers demo_findFormatExt demo_findFormatExt demo_same demo_same
    demo_path_join demo_items_rev demo_dict_lt true.
Proof.
  apply (getWorkReferences_same_result "/" demo_core_paths demo_no_paths demo_no_paths
           demo_core_paths_rev demo_no_paths demo_no_paths demo_virtual demo_composers
           demo_findFormatExt demo_findFormatExt demo_same demo_same demo_path_join
           demo_items demo_items_rev demo_dict_lt).
  - exact demo_same_listing.
  - intros works. reflexivity.
  - intros works. apply reverse_Permutation.
Defined.

(** * The further properties on the small corpus *)


Lemma getComposer_name_case_witness :
  getComposer "/" demo_core_paths demo_no_paths demo_no_paths "BACH" ExtNone =
  getComposer "/" demo_core_paths demo_no_paths demo_no_paths "Bach" ExtNone.
Proof. apply getComposer_name_case. reflexivity. Defined.

Lemma getVirtualWorkList_empty_name_witness :
  getVirtualWorkList (option nat) demo_virtual demo_getUrlByExt "" None ExtNone =
  demo_getUrlByExt demo_bwv1 (listify ExtNone).
Proof. apply (getVirtualWorkList_empty_name _ _ _ _ _ _ [demo_prelude]). reflexivity. Defined.

Lemma getVirtualWorkList_name_case_witness :
  getVirtualWorkList (option nat) demo_virtual demo_getUrlByExt "BWV1007" None ExtNone =
  getVirtualWorkList (option nat) demo_virtual demo_getUrlByExt "bwv1007" None ExtNone.
Proof. apply getVirtualWorkList_name_case. reflexivity. Defined.

Lemma demo_capital_no_bach : ~ is_substring "bach" "/corpus/Bach/bwv1.xml".
Proof. intros H. apply contains_spec in H. discriminate H. Defined.

(** The file is listed for [bach] under the directory [Bach]. *)
Lemma getWorkReferences_case_mismatch_witness :
  "/corpus/Bach/bwv1.xml" ∈
    getComposer "/" demo_capital_paths demo_no_paths demo_no_paths "bach" ExtNone /\
  exists msg,
    getWorkReferences "/" demo_capital_paths demo_no_paths demo_no_paths demo_virtual
      demo_composers demo_findFormatExt demo_findFormatExt demo_same demo_same
      demo_path_join demo_items demo_dict_lt true = Raise (ValueError msg).
Proof.
  split; [by left|].
  apply (getWorkReferences_case_mismatch "/" demo_capital_paths demo_no_paths demo_no_paths
           demo_virtual demo_composers demo_findFormatExt demo_findFormatExt demo_same
           demo_same demo_path_join demo_items demo_dict_lt true
           "bach" "Johann Sebastian Bach" "/corpus/Bach/bwv1.xml").
  - right. by left.
  - by left.
  - exact demo_capital_no_bach.
Defined.

Lemma getWorkReferences_entries_of_one_kind_witness :
  exists refs,
    demo_references true = Ok refs /\
    forall ref workStub w,
      ref ∈ refs -> ref_works ref !! workStub = Some w -> entry_ok w.
Proof.
  eexists. split; [vm_compute; reflexivity|].
  apply (getWorkReferences_entries_of_one_kind "/" demo_core_paths demo_no_paths
           demo_no_paths demo_virtual demo_composers demo_findFormatExt demo_findFormatExt
           demo_same demo_same demo_path_join demo_items demo_dict_lt true).
  vm_compute. reflexivity.
Defined.

Lemma getWorkReferences_sorted_keys_witness :
  exists refs,
    getWorkReferences "/" demo_core_paths demo_no_paths demo_no_paths demo_virtual
      demo_composers demo_findFormatExt demo_findFormatExt demo_same demo_same
      demo_path_join demo_items_rev demo_dict_lt true = Ok refs /\
    forall ref, ref ∈ refs ->
      exists pairs : list (string * string),
        ref_sortedWorkKeys ref = Some pairs.*2 /\
        StronglySorted title_key_le pairs /\
        NoDup pairs.*2 /\
        (forall t k, (t, k) ∈ pairs <->
                     exists w, ref_works ref !! k = Some w /\ wk_title w = t).
Proof.
  eexists. split; [vm_compute; reflexivity|].
  apply (getWorkReferences_sorted_keys "/" demo_core_paths demo_no_paths
           demo_no_paths demo_virtual demo_composers demo_findFormatExt demo_findFormatExt
           demo_same demo_same demo_path_join demo_items_rev demo_dict_lt).
  - intros works. apply reverse_Permutation.
  - vm_compute. reflexivity.
Defined.

(** The first call ends with the RuntimeError of the cache loop; the path
    is refused the second time all the same. *)
Lemma addPath_twice_witness :
  (addPath demo_exists [] (Some "/home/user/more") demo_state).2 =
    Raise (RuntimeError "dictionary changed size during iteration") /\
  addPath demo_exists [] (Some "/home/user/more")
          (addPath demo_exists [] (Some "/home/user/more") demo_state).1 =
  ((addPath demo_exists [] (Some "/home/user/more") demo_state).1,
   Raise (CorpusException "the provided path has already been added")).
Proof.
  split; [reflexivity|].
  apply (addPath_twice demo_exists [] "/home/user/more" demo_state demo_more_accepted).
Defined.

Lemma addPath_no_duplicates_witness :
  NoDup (pathsLocalTemp (addPath demo_exists [] (Some "/home/user/more") demo_state).1).
Proof.
  apply (addPath_no_duplicates demo_exists [] (Some "/home/user/more") demo_state).
  apply NoDup_singleton.
Defined.

Lemma compressXML_archive_witness :
  exists archivedName calls r,
    PyStr.contains "/" archivedName = false /\
    ("/corpus/bach/bwv1" +:+ ".xml" = archivedName \/
     exists dir, "/corpus/bach/bwv1" +:+ ".xml" = dir +:+ String "/" archivedName) /\
    compressXML "/" demo_outcome ("/corpus/bach/bwv1" +:+ ".xml") true [] = ([] ++ calls, r) /\
    calls `sublist_of`
      compress_calls "/" ("/corpus/bach/bwv1" +:+ ".mxl") ("/corpus/bach/bwv1" +:+ ".xml")
        archivedName ++ [OsRemove ("/corpus/bach/bwv1" +:+ ".xml")] /\
    (OsRemove ("/corpus/bach/bwv1" +:+ ".xml") ∈ calls <->
     true = true /\
     all_return demo_outcome []
       (compress_calls "/" ("/corpus/bach/bwv1" +:+ ".mxl") ("/corpus/bach/bwv1" +:+ ".xml")
          archivedName)) /\
    (r = Ok tt <->
     all_return demo_outcome []
       (compress_calls "/" ("/corpus/bach/bwv1" +:+ ".mxl") ("/corpus/bach/bwv1" +:+ ".xml")
          archivedName) /\
     (true = true ->
      demo_outcome
        ([] ++ compress_calls "/" ("/corpus/bach/bwv1" +:+ ".mxl")
                 ("/corpus/bach/bwv1" +:+ ".xml") archivedName)
        (OsRemove ("/corpus/bach/bwv1" +:+ ".xml")) = None)) /\
    (forall other h',
        PyStr.endswith other ".xml" = false ->
        compressXML "/" demo_outcome other true h' = (h', Ok tt)).
Proof.
  apply (compressXML_archive "/" demo_outcome "/corpus/bach/bwv1" true []). reflexivity.
Defined.

Example compressXML_demo :
  compressXML "/" demo_outcome "/corpus/bach/bwv1.xml" true [] =
  ([ Warn "Updating file: /corpus/bach/bwv1.xml";
     ZipOpen "/corpus/bach/bwv1.mxl" "w";
     ZipWrite "/corpus/bach/bwv1.mxl" "/corpus/bach/bwv1.xml" "bwv1.xml";
     ZipWriteStr "/corpus/bach/bwv1.mxl" "META-INF/container.xml" (container_xml "bwv1.xml");
     ZipClose "/corpus/bach/bwv1.mxl";
     OsRemove "/corpus/bach/bwv1.xml" ],
   Ok tt).
Proof. reflexivity. Qed.

Lemma uncompressMXL_extraction_witness :
  exists calls r,
    uncompressMXL "/" demo_outcome demo_splitext
      ("/corpus/bach" +:+ String "/" ("bwv1" +:+ ".mxl")) false [] = ([] ++ calls, r) /\
    calls `sublist_of`
      uncompress_calls ("/corpus/bach" +:+ String "/" ("bwv1" +:+ ".mxl"))
        ("bwv1" +:+ ".xml") "/corpus/bach" ++
      [OsRemove ("/corpus/bach" +:+ String "/" ("bwv1" +:+ ".mxl"))] /\
    (OsRemove ("/corpus/bach" +:+ String "/" ("bwv1" +:+ ".mxl")) ∈ calls <->
     false = true /\
     all_return demo_outcome []
       (uncompress_calls ("/corpus/bach" +:+ String "/" ("bwv1" +:+ ".mxl"))
          ("bwv1" +:+ ".xml") "/corpus/bach")) /\
    (r = Ok tt <->
     all_return demo_outcome []
       (uncompress_calls ("/corpus/bach" +:+ String "/" ("bwv1" +:+ ".mxl"))
          ("bwv1" +:+ ".xml") "/corpus/bach") /\
     (false = true ->
      demo_outcome
        ([] ++ uncompress_calls ("/corpus/bach" +:+ String "/" ("bwv1" +:+ ".mxl"))
                 ("bwv1" +:+ ".xml") "/corpus/bach")
        (OsRemove ("/corpus/bach" +:+ String "/" ("bwv1" +:+ ".mxl"))) = None)) /\
    (forall other h',
        PyStr.endswith other ".mxl" = false ->
        uncompressMXL "/" demo_outcome demo_splitext other false h' = (h', Ok tt)).
Proof.
  apply (uncompressMXL_extraction "/" demo_outcome demo_splitext "/corpus/bach" "bwv1"
           false []); reflexivity.
Defined.
